(** * The web-search tool of the voice agent ([src/agent.py])

    The only logic this repository owns is [Assistant.search_web]: a tool the
    language model may call with a query.  It looks up the Tavily credential in
    the process environment, builds a Tavily client, issues one search at depth
    "advanced", prints the response, optionally sleeps for
    [TAVILY_SEARCH_DELAY] seconds and returns the response.

    The development has four parts:
    - [Py]: the Python values, exceptions and the builtin [int(str)] the tool
      relies on;
    - [Eff]: the effects of the tool (logging, environment reads, the Tavily
      client, printing, sleeping) as a free monad, with the world that answers
      them;
    - [Agent]: [search_web] itself, written as in the source;
    - [Loop]: several invocations interleaved by the event loop;
    - [Session]: [prewarm] and the entry point [my_agent], which set up the
      voice session around the tool. *)

From Stdlib Require Import ZArith Ascii String Lia.
From stdpp Require Import base option list gmap strings.

Set Warnings "-register-all".

Local Open Scope Z_scope.

(* ===================================================================== *)
(** * Python values, exceptions, and [int()] *)
(* ===================================================================== *)

Module Py.

(** The values that travel through the tool.  A Tavily response is a [dict]
    of strings, numbers and nested lists; the tool never looks inside it. *)
Inductive pyval :=
| PyNone
| PyBool (b : bool)
| PyInt (n : Z)
| PyStr (s : string)
| PyList (items : list pyval)
| PyDict (items : list (string * pyval)).

(** Type annotations as they occur in the signature of the tool. *)
Inductive pytype := TNoneType | TBool | TInt | TStr | TList | TDict.

Definition type_of (v : pyval) : pytype :=
  match v with
  | PyNone => TNoneType
  | PyBool _ => TBool
  | PyInt _ => TInt
  | PyStr _ => TStr
  | PyList _ => TList
  | PyDict _ => TDict
  end.

Definition pytype_eqb (a b : pytype) : bool :=
  match a, b with
  | TNoneType, TNoneType | TBool, TBool | TInt, TInt
  | TStr, TStr | TList, TList | TDict, TDict => true
  | _, _ => false
  end.

(** [isinstance(v, t)] for the builtin types above ([bool] is a subclass of
   [int] in Python). *)
Definition isinstance (v : pyval) (t : pytype) : bool :=
  match v, t with
  | PyBool _, TInt => true
  | _, _ => pytype_eqb (type_of v) t
  end.

(** Exceptions.  [KeyError] and [ValueError] are the two the tool's own
    expressions can raise; [TypeError] is what [int(None)] would raise;
    [OverflowError] is what converting too large an [int] to a [float] raises;
    everything the Tavily library raises (missing or invalid key, usage limit,
    network failure) is a [LibraryError] with its class name and message. *)
Inductive exn :=
| KeyError (key : string)
| ValueError (literal : string)
| TypeError (msg : string)
| OverflowError (msg : string)
| LibraryError (cls msg : string).

(** ** [int] to [float]

    CPython rounds an [int] to 53 bits, half to even, and raises
    [OverflowError] when the result is beyond the largest finite double,
    [2^1024 - 2^971]: that is from [2^1024 - 2^970] on, in absolute value. *)
Definition float_bound : Z := 2 ^ 1024 - 2 ^ 970.

Definition float_overflows (n : Z) : bool := (float_bound <=? Z.abs n).

Arguments float_bound : simpl never.
Arguments float_overflows : simpl never.

(** Truth value of [os.environ.get(...)]: [None] and the empty string are
    false, every other string is true. *)
Definition truthy (v : option string) : bool :=
  match v with
  | None => false
  | Some "" => false
  | Some _ => true
  end.

(** ** [int(s)] for a [str] argument, base 10

    CPython ([PyLong_FromString]): skip leading white space, an optional sign,
    then decimal digits in which single underscores may separate digits (no
    leading, trailing or doubled underscore), then trailing white space up to
    the end of the string.  More than [int_max_str_digits] digits are refused
    (the interpreter's default limit).  The model covers ASCII strings; a
    string with a byte above 127 is outside it and [int_] answers [None]
    there, although Python reads Unicode decimal digits and white space
    too.  Statements that rest on [int_] failing, or on [int_] deciding,
    therefore ask for [is_ascii]; [int_ s = Some n] already implies it. *)

Definition is_space (c : ascii) : bool :=
  let n := nat_of_ascii c in
  ((9 <=? n)%nat && (n <=? 13)%nat) || (n =? 32)%nat.

Definition digit_value (c : ascii) : option Z :=
  let n := nat_of_ascii c in
  if ((48 <=? n)%nat && (n <=? 57)%nat)%bool then Some (Z.of_nat (n - 48)) else None.

Definition is_underscore (c : ascii) : bool := (nat_of_ascii c =? 95)%nat.

Definition is_ascii (s : string) : bool :=
  forallb (fun c => (nat_of_ascii c <? 128)%nat) (list_ascii_of_string s).

Fixpoint skip_spaces (s : string) : string :=
  match s with
  | String c s' => if is_space c then skip_spaces s' else s
  | EmptyString => s
  end.

Definition int_max_str_digits : nat := 4300.

(** The scanning loop: [prev_us] tells whether the previous character was an
    underscore, [acc] is the value so far and [ndigits] the digits seen.  It
    stops at the first character that is neither a digit nor an underscore and
    returns the value, the number of digits and the rest of the string. *)
Fixpoint scan_digits (s : string) (prev_us : bool) (acc : Z) (ndigits : nat)
  : option (Z * nat * string) :=
  match s with
  | EmptyString => if prev_us then None else Some (acc, ndigits, s)
  | String c s' =>
      if is_underscore c then
        if prev_us then None else scan_digits s' true acc ndigits
      else
        match digit_value c with
        | Some d => scan_digits s' false (10 * acc + d) (S ndigits)
        | None => if prev_us then None else Some (acc, ndigits, s)
        end
  end.

Definition parse_sign (s : string) : Z * string :=
  match s with
  | String "+" s' => (1, s')
  | String "-" s' => (-1, s')
  | _ => (1, s)
  end.

Definition starts_with_underscore (s : string) : bool :=
  match s with
  | String c _ => is_underscore c
  | EmptyString => false
  end.

Definition int_ (s : string) : option Z :=
  let '(sign, body) := parse_sign (skip_spaces s) in
  if starts_with_underscore body then None
  else
    match scan_digits body false 0 0 with
    | Some (n, ndigits, rest) =>
        match ndigits with
        | O => None
        | _ =>
            if (int_max_str_digits <? ndigits)%nat then None
            else
              match skip_spaces rest with
              | EmptyString => Some (sign * n)
              | _ => None
              end
        end
    | None => None
    end.

End Py.

Import Py.

(* ===================================================================== *)
(** * Effects and the world that answers them *)
(* ===================================================================== *)

Module Eff.

(** A [TavilyClient] object holds the key it was built with. *)
Record TavilyClient := { api_key : string }.

(** What the tool asks of its surroundings. *)
Inductive effect :=
| LoggerInfo (msg : string)
| EnvironGet (name : string)
| TavilyInit (key : string)
| TavilySearch (client : TavilyClient) (query depth : string)
| Print (v : pyval)
| AsyncioSleep (secs : Z).

Definition answer (e : effect) : Type :=
  match e with
  | LoggerInfo _ => unit
  | EnvironGet _ => option string
  | TavilyInit _ => exn + TavilyClient
  | TavilySearch _ _ _ => exn + pyval
  | Print _ => unit
  | AsyncioSleep _ => unit
  end.

(** Programs: return a value, raise, or perform an effect and go on with its
    answer. *)
Inductive prog (A : Type) : Type :=
| Ret (a : A)
| Raise (e : exn)
| Vis (e : effect) (k : answer e -> prog A).

Arguments Ret {A} a.
Arguments Raise {A} e.
Arguments Vis {A} e k.

Fixpoint bind {A B} (m : prog A) (f : A -> prog B) : prog B :=
  match m with
  | Ret a => f a
  | Raise e => Raise e
  | Vis e k => Vis e (fun x => bind (k x) f)
  end.

#[export] Instance prog_ret : MRet prog := @Ret.
#[export] Instance prog_bind : MBind prog := fun A B f m => bind m f.

(** What an observer of the process sees: each effect with its answer. *)
Inductive event :=
| ELog (msg : string)
| EEnv (name : string) (value : option string)
| EInit (key : string) (failure : option exn)
| ESearch (key query depth : string) (reply : exn + pyval)
| EPrint (v : pyval)
| ESleep (secs : Z).

(** The Tavily library and service.  Building a client succeeds or raises,
    depending on the key; a search succeeds or raises, and its reply may depend
    on everything that happened before (quota, network, other requests). *)
Record Tavily := {
  tavily_init : string -> option exn;
  tavily_search : list (nat * event) -> string -> string -> string -> exn + pyval
}.

(** The world: the process environment, the Tavily side, and the events so
    far, each tagged with the invocation that caused it. *)
Record World := {
  environ : gmap string string;
  tavily : Tavily;
  history : list (nat * event)
}.

Definition record_event (tid : nat) (ev : event) (w : World) : World :=
  {| environ := environ w; tavily := tavily w;
     history := history w ++ [(tid, ev)] |}.

(** The answer the world gives to an effect, and the event it leaves. *)
Definition respond (e : effect) (w : World) : answer e * event :=
  match e as e0 return answer e0 * event with
  | LoggerInfo msg => (tt, ELog msg)
  | EnvironGet name =>
      let v := environ w !! name in
      (v, EEnv name v)
  | TavilyInit key =>
      let r := tavily_init (tavily w) key in
      (match r with
       | None => inr {| api_key := key |}
       | Some e => inl e
       end, EInit key r)
  | TavilySearch c q d =>
      let r := tavily_search (tavily w) (history w) (api_key c) q d in
      (r, ESearch (api_key c) q d r)
  | Print v => (tt, EPrint v)
  | AsyncioSleep n => (tt, ESleep n)
  end.

Definition handle (tid : nat) (e : effect) (w : World) : answer e * World :=
  let '(x, ev) := respond e w in (x, record_event tid ev w).

(** How a call of a coroutine ends. *)
Inductive outcome (A : Type) :=
| Returned (a : A)
| Raised (e : exn).

Arguments Returned {A} a.
Arguments Raised {A} e.

(** Run a program to its end as invocation [tid]. *)
Fixpoint run {A} (tid : nat) (p : prog A) (w : World) : outcome A * World :=
  match p with
  | Ret a => (Returned a, w)
  | Raise e => (Raised e, w)
  | Vis e k => let '(x, w') := handle tid e w in run tid (k x) w'
  end.

(** One effect of a program. *)
Definition step {A} (tid : nat) (p : prog A) (w : World) : prog A * World :=
  match p with
  | Vis e k => let '(x, w') := handle tid e w in (k x, w')
  | _ => (p, w)
  end.

(** The Python operations the tool uses. *)
Definition logger_info (msg : string) : prog unit := Vis (LoggerInfo msg) Ret.

Definition os_environ_getitem (name : string) : prog string :=
  Vis (EnvironGet name)
      (fun v => match v with
                | Some s => Ret s
                | None => Raise (KeyError name)
                end).

Definition os_environ_get (name : string) : prog (option string) :=
  Vis (EnvironGet name) Ret.

Definition TavilyClient_new (key : string) : prog TavilyClient :=
  Vis (TavilyInit key)
      (fun r => match r with
                | inl e => Raise e
                | inr c => Ret c
                end).

Definition client_search (client : TavilyClient) (query depth : string) : prog pyval :=
  Vis (TavilySearch client query depth)
      (fun r => match r with
                | inl e => Raise e
                | inr v => Ret v
                end).

Definition print (v : pyval) : prog unit := Vis (Print v) Ret.

(** [await asyncio.sleep(secs)] for an [int], on CPython's event loop.  A
    delay of zero or less yields to the loop and comes back at once; a
    positive delay is added to the loop's clock, a [float], and an [int] too
    large for a [float] makes that raise [OverflowError] before anything is
    scheduled.  The effect [AsyncioSleep] stands for the suspension itself. *)
Definition sleep_overflows (secs : Z) : bool :=
  (0 <? secs) && float_overflows secs.

Arguments sleep_overflows : simpl never.

Definition asyncio_sleep (secs : Z) : prog unit :=
  if sleep_overflows secs
  then Raise (OverflowError "int too large to convert to float")
  else Vis (AsyncioSleep secs) Ret.

(** [int(x)] where [x] came from [os.environ.get]. *)
Definition int_of (x : option string) : prog Z :=
  match x with
  | None => Raise (TypeError "int() argument must be a string, a bytes-like object or a real number, not 'NoneType'")
  | Some s =>
      match int_ s with
      | Some n => Ret n
      | None => Raise (ValueError s)
      end
  end.

End Eff.

Import Eff.

(* ===================================================================== *)
(** * The tool *)
(* ===================================================================== *)

Module Agent.

Record signature := {
  sig_name : string;
  sig_params : list (string * pytype);
  sig_returns : pytype
}.

(** [async def search_web(self, query: str) -> str] *)
Definition search_web_signature : signature :=
  {| sig_name := "search_web";
     sig_params := [("query", TStr)];
     sig_returns := TStr |}.

Definition search_web (query : string) : prog pyval :=
  logger_info "TAVILY SearchAgent thinking...";;
  key ← os_environ_getitem "TAVILY_API_KEY";
  client ← TavilyClient_new key;
  response ← client_search client query "advanced";
  print response;;
  logger_info "TAVILY SearchAgent finished. simulating delay...";;
  delay ← os_environ_get "TAVILY_SEARCH_DELAY";
  (if truthy delay
   then secs ← int_of delay; asyncio_sleep secs
   else mret tt);;
  mret response.

(** One call of the tool, as invocation [tid], in world [w]. *)
Definition invoke (tid : nat) (query : string) (w : World) : outcome pyval * World :=
  run tid (search_web query) w.

(** The events the call added to the history. *)
Definition trace_of (tid : nat) (query : string) (w : World) : list event :=
  snd <$> drop (length (history w)) (history (invoke tid query w).2).

(** Calls made one after the other: call [i] of the list is invocation
    [first + i].  Each call is reported with its outcome and its own trace. *)
Fixpoint invoke_all (first : nat) (queries : list string) (w : World)
  : list (outcome pyval * list event) * World :=
  match queries with
  | [] => ([], w)
  | q :: qs =>
      let rest := invoke_all (S first) qs (invoke first q w).2 in
      (((invoke first q w).1, trace_of first q w) :: rest.1, rest.2)
  end.

(** Observations on a trace. *)
Definition is_search (ev : event) : bool :=
  match ev with ESearch _ _ _ _ => true | _ => false end.

Definition sleeps (tr : list event) : list Z :=
  omap (fun ev => match ev with ESleep n => Some n | _ => None end) tr.

(** Seconds spent suspended in [asyncio.sleep]: a delay of zero or less
    yields to the loop and comes back at once. *)
Definition suspended_seconds (tr : list event) : Z :=
  foldr Z.add 0 (Z.max 0 <$> sleeps tr).

Definition searches (tr : list event) : list (string * string * string) :=
  omap (fun ev => match ev with ESearch k q d _ => Some (k, q, d) | _ => None end) tr.

Definition search_replies (tr : list event) : list (exn + pyval) :=
  omap (fun ev => match ev with ESearch _ _ _ r => Some r | _ => None end) tr.

Definition prints (tr : list event) : list pyval :=
  omap (fun ev => match ev with EPrint v => Some v | _ => None end) tr.

Definition events_of (tid : nat) (h : list (nat * event)) : list event :=
  snd <$> filter (fun te => te.1 = tid) h.

Definition is_env_read (ev : event) : bool :=
  match ev with EEnv _ _ => true | _ => false end.

(** What can be seen from outside the process: everything but the reads of
    the environment. *)
Definition visible (tr : list event) : list event :=
  List.filter (fun ev => negb (is_env_read ev)) tr.

(** The delay setting lets the call go through: unset, empty, or an integer
    literal (ASCII, as [int_] reads it) that [asyncio.sleep] accepts. *)
Definition delay_usable (delay : option string) : bool :=
  negb (truthy delay) ||
  match delay ≫= int_ with
  | Some secs => negb (sleep_overflows secs)
  | None => false
  end.

Definition with_environ (env : gmap string string) (w : World) : World :=
  {| environ := env; tavily := tavily w; history := history w |}.

(** ** The ways a call can go

    Idle, requesting, possibly delaying, then completed or failed: seven
    paths in all.  The events
    up to the request are [request_prefix]; [reply_to] is what the service
    answers this invocation's request, given all that happened before it. *)
Definition request_prefix (key : string) : list event :=
  [ELog "TAVILY SearchAgent thinking...";
   EEnv "TAVILY_API_KEY" (Some key);
   EInit key None].

Definition reply_to (tid : nat) (q key : string) (w : World) : exn + pyval :=
  tavily_search (tavily w)
    (history w ++ ((fun ev => (tid, ev)) <$> request_prefix key))
    key q "advanced".

Inductive path (tid : nat) (q : string) (w : World)
  : outcome pyval -> list event -> Prop :=
| path_no_key :
    environ w !! "TAVILY_API_KEY" = None ->
    path tid q w (Raised (KeyError "TAVILY_API_KEY"))
      [ELog "TAVILY SearchAgent thinking..."; EEnv "TAVILY_API_KEY" None]
| path_init_fails key e :
    environ w !! "TAVILY_API_KEY" = Some key ->
    tavily_init (tavily w) key = Some e ->
    path tid q w (Raised e)
      [ELog "TAVILY SearchAgent thinking...";
       EEnv "TAVILY_API_KEY" (Some key);
       EInit key (Some e)]
| path_search_fails key e :
    environ w !! "TAVILY_API_KEY" = Some key ->
    tavily_init (tavily w) key = None ->
    reply_to tid q key w = inl e ->
    path tid q w (Raised e)
      (request_prefix key ++ [ESearch key q "advanced" (inl e)])
| path_no_delay key r delay :
    environ w !! "TAVILY_API_KEY" = Some key ->
    tavily_init (tavily w) key = None ->
    reply_to tid q key w = inr r ->
    environ w !! "TAVILY_SEARCH_DELAY" = delay ->
    truthy delay = false ->
    path tid q w (Returned r)
      (request_prefix key ++
       [ESearch key q "advanced" (inr r); EPrint r;
        ELog "TAVILY SearchAgent finished. simulating delay...";
        EEnv "TAVILY_SEARCH_DELAY" delay])
| path_bad_delay key r d :
    environ w !! "TAVILY_API_KEY" = Some key ->
    tavily_init (tavily w) key = None ->
    reply_to tid q key w = inr r ->
    environ w !! "TAVILY_SEARCH_DELAY" = Some d ->
    d <> "" ->
    int_ d = None ->
    path tid q w (Raised (ValueError d))
      (request_prefix key ++
       [ESearch key q "advanced" (inr r); EPrint r;
        ELog "TAVILY SearchAgent finished. simulating delay...";
        EEnv "TAVILY_SEARCH_DELAY" (Some d)])
| path_overflow key r d n :
    environ w !! "TAVILY_API_KEY" = Some key ->
    tavily_init (tavily w) key = None ->
    reply_to tid q key w = inr r ->
    environ w !! "TAVILY_SEARCH_DELAY" = Some d ->
    d <> "" ->
    int_ d = Some n ->
    sleep_overflows n = true ->
    path tid q w (Raised (OverflowError "int too large to convert to float"))
      (request_prefix key ++
       [ESearch key q "advanced" (inr r); EPrint r;
        ELog "TAVILY SearchAgent finished. simulating delay...";
        EEnv "TAVILY_SEARCH_DELAY" (Some d)])
| path_delay key r d n :
    environ w !! "TAVILY_API_KEY" = Some key ->
    tavily_init (tavily w) key = None ->
    reply_to tid q key w = inr r ->
    environ w !! "TAVILY_SEARCH_DELAY" = Some d ->
    d <> "" ->
    int_ d = Some n ->
    sleep_overflows n = false ->
    path tid q w (Returned r)
      (request_prefix key ++
       [ESearch key q "advanced" (inr r); EPrint r;
        ELog "TAVILY SearchAgent finished. simulating delay...";
        EEnv "TAVILY_SEARCH_DELAY" (Some d);
        ESleep n]).

End Agent.

Import Agent.

(* ===================================================================== *)
(** * Invocations interleaved by the event loop *)
(* ===================================================================== *)

Module Loop.

(** The orchestrator may have several tool calls in flight.  Task [i] of the
    pool is invocation [i]; the schedule names, step by step, the task that
    performs its next effect.  asyncio switches tasks only at an [await] that
    suspends (here the sleep); switching after every effect allows every
    interleaving asyncio can produce, and more. *)
Definition spawn (queries : list string) : list (prog pyval) :=
  search_web <$> queries.

Definition sched_step (tid : nat) (ps : list (prog pyval)) (w : World)
  : list (prog pyval) * World :=
  match ps !! tid with
  | Some p => let '(p', w') := step tid p w in (<[tid := p']> ps, w')
  | None => (ps, w)
  end.

Fixpoint run_pool (sched : list nat) (ps : list (prog pyval)) (w : World)
  : list (prog pyval) * World :=
  match sched with
  | [] => (ps, w)
  | tid :: sched' =>
      let '(ps', w') := sched_step tid ps w in run_pool sched' ps' w'
  end.

Definition result_of {A} (p : prog A) : option (outcome A) :=
  match p with
  | Ret a => Some (Returned a)
  | Raise e => Some (Raised e)
  | Vis _ _ => None
  end.

(** The events the pool added to the history that belong to task [tid]. *)
Definition pool_events (sched : list nat) (queries : list string) (w : World)
    (tid : nat) : list event :=
  events_of tid
    (drop (length (history w)) (history (run_pool sched (spawn queries) w).2)).

(** [trace_to p evs p']: program [p] becomes [p'] by performing effects that
    some world answered, leaving the events [evs]. *)
Fixpoint trace_to {A} (p : prog A) (evs : list event) (p' : prog A) {struct evs}
  : Prop :=
  match evs with
  | [] => p = p'
  | ev :: evs' =>
      match p with
      | Vis e k =>
          exists w, ev = (respond e w).2 /\ trace_to (k (respond e w).1) evs' p'
      | _ => False
      end
  end.

(** Every task of the pool is where its own events have taken it. *)
Definition pool_inv (queries : list string) (ps : list (prog pyval))
    (h : list (nat * event)) : Prop :=
  forall tid p, ps !! tid = Some p ->
    exists q, queries !! tid = Some q /\
              trace_to (search_web q) (events_of tid h) p.

End Loop.

Import Loop.

(* ===================================================================== *)
(** * Sample worlds *)
(* ===================================================================== *)

Module Sample.

(** A response in the shape Tavily gives: the query echoed and one hit. *)
Definition response_for (q : string) : pyval :=
  PyDict [("query", PyStr q);
          ("results",
           PyList [PyDict [("title", PyStr ("About " +:+ q));
                           ("url", PyStr "https://example.org/");
                           ("content", PyStr "...")]])].

(** The library refuses an empty key; the service answers every search. *)
Definition init_nonempty (key : string) : option exn :=
  match key with
  | "" => Some (LibraryError "MissingAPIKeyError" "No API key provided.")
  | _ => None
  end.

Definition tavily_up : Tavily :=
  {| tavily_init := init_nonempty;
     tavily_search := fun _ _ q _ => inr (response_for q) |}.

(** The service refuses the key. *)
Definition tavily_unauthorized : Tavily :=
  {| tavily_init := init_nonempty;
     tavily_search := fun _ _ _ _ =>
       inl (LibraryError "InvalidAPIKeyError" "Unauthorized: missing or invalid API key.") |}.

(** The plan allows two searches; the third is refused. *)
Definition tavily_quota2 : Tavily :=
  {| tavily_init := init_nonempty;
     tavily_search := fun h _ q _ =>
       if (length (filter (fun te => is_search te.2 = true) h) <? 2)%nat
       then inr (response_for q)
       else inl (LibraryError "UsageLimitExceededError" "This request exceeds your plan's set usage limit.") |}.

Definition env_key : gmap string string :=
  {[ "TAVILY_API_KEY" := "tvly-test" ]}.

Definition env_delay (d : string) : gmap string string :=
  <[ "TAVILY_SEARCH_DELAY" := d ]> env_key.

(** A decimal literal that [int] reads and no [float] holds: 2 and 308
    zeros. *)
Definition huge_delay : string :=
  String "2" (string_of_list_ascii (repeat "0"%char 308)).

Definition world (env : gmap string string) (t : Tavily) : World :=
  {| environ := env; tavily := t; history := [] |}.

End Sample.

(* ===================================================================== *)
(** * The session: [prewarm] and [my_agent] *)
(* ===================================================================== *)

Module Session.

(** Objects built by the framework and its plugins (speech, model, voice
    activity detector, session, player ...) are known by their handles. *)
Definition obj := nat.

(** [rtc.ParticipantKind.PARTICIPANT_KIND_SIP], a protocol enumeration. *)
Definition PARTICIPANT_KIND_SIP : Z := 3.

Record Participant := { kind : Z }.
Record NoiseCancellationParams := { participant : Participant }.

Inductive noise_filter := BVC | BVCTelephony.

Record AudioInputOptions := {
  noise_cancellation : NoiseCancellationParams -> noise_filter
}.
Record RoomOptions := { audio_input : AudioInputOptions }.

(** [AudioConfig(source, volume=...)]; the volume is kept as written. *)
Record AudioConfig := { source : string; volume : string }.

Record Room := { name : string }.
Record JobContext := { room : Room }.

(** Calls into the framework and the plugins. *)
Inductive ext :=
| VAD_load
| AzureSTT (speech_key speech_region language : string)
| InferenceLLM (model : string)
| InferenceTTS (model voice : string)
| MultilingualModel_new
| AgentSession_new (stt llm tts turn_detection vad : obj) (preemptive_generation : bool)
| Assistant_new (instructions : string)
| Session_start (session agent : obj) (room : Room) (room_options : RoomOptions)
| BackgroundAudioPlayer_new (thinking_sound : list AudioConfig)
| BackgroundAudio_start (player : obj) (room : Room) (agent_session : obj)
| Session_say (session : obj) (text : string) (allow_interruptions : bool)
| Ctx_connect.

(** What the two functions do to their surroundings. *)
Inductive call :=
| SetLogContextFields (fields : gmap string string)
| EnvironGetItem (name : string)
| UserdataGetItem (key : string)
| UserdataSetItem (key : string) (value : obj)
| External (c : ext).

Definition reply (c : call) : Type :=
  match c with
  | SetLogContextFields _ => unit
  | EnvironGetItem _ => option string
  | UserdataGetItem _ => option obj
  | UserdataSetItem _ _ => unit
  | External _ => exn + obj
  end.

Inductive script (A : Type) : Type :=
| Finish (a : A)
| Abort (e : exn)
| Do (c : call) (k : reply c -> script A).

Arguments Finish {A} a.
Arguments Abort {A} e.
Arguments Do {A} c k.

Fixpoint script_bind {A B} (m : script A) (f : A -> script B) : script B :=
  match m with
  | Finish a => f a
  | Abort e => Abort e
  | Do c k => Do c (fun x => script_bind (k x) f)
  end.

#[export] Instance script_ret : MRet script := @Finish.
#[export] Instance script_mbind : MBind script := fun A B f m => script_bind m f.

Inductive sevent :=
| SSetLog (fields : gmap string string)
| SEnv (name : string) (value : option string)
| SGet (key : string) (value : option obj)
| SSet (key : string) (value : obj)
| SExt (c : ext) (r : exn + obj).

(** The job and its process: the environment, [proc.userdata], the log
    context of the job, the framework and plugins (which may answer or raise,
    depending on all that happened before), and the events so far. *)
Record Job := {
  j_environ : gmap string string;
  j_userdata : gmap string obj;
  j_log_context_fields : gmap string string;
  j_services : list sevent -> ext -> exn + obj;
  j_history : list sevent
}.

Definition react (c : call) (w : Job) : reply c * sevent * Job :=
  let note ev w' :=
    {| j_environ := j_environ w'; j_userdata := j_userdata w';
       j_log_context_fields := j_log_context_fields w';
       j_services := j_services w';
       j_history := j_history w ++ [ev] |} in
  match c as c0 return reply c0 * sevent * Job with
  | SetLogContextFields fields =>
      (tt, SSetLog fields,
       note (SSetLog fields)
         {| j_environ := j_environ w; j_userdata := j_userdata w;
            j_log_context_fields := fields;
            j_services := j_services w; j_history := j_history w |})
  | EnvironGetItem name =>
      let v := j_environ w !! name in
      (v, SEnv name v, note (SEnv name v) w)
  | UserdataGetItem key =>
      let v := j_userdata w !! key in
      (v, SGet key v, note (SGet key v) w)
  | UserdataSetItem key value =>
      (tt, SSet key value,
       note (SSet key value)
         {| j_environ := j_environ w; j_userdata := <[key := value]> (j_userdata w);
            j_log_context_fields := j_log_context_fields w;
            j_services := j_services w; j_history := j_history w |})
  | External c =>
      let r := j_services w (j_history w) c in
      (r, SExt c r, note (SExt c r) w)
  end.

Fixpoint perform {A} (p : script A) (w : Job) : outcome A * Job :=
  match p with
  | Finish a => (Returned a, w)
  | Abort e => (Raised e, w)
  | Do c k => let '(x, _, w') := react c w in perform (k x) w'
  end.

(** The Python operations. *)
Definition environ_getitem (name : string) : script string :=
  Do (EnvironGetItem name)
     (fun v => match v with
               | Some s => Finish s
               | None => Abort (KeyError name)
               end).

Definition userdata_getitem (key : string) : script obj :=
  Do (UserdataGetItem key)
     (fun v => match v with
               | Some o => Finish o
               | None => Abort (KeyError key)
               end).

Definition userdata_setitem (key : string) (value : obj) : script unit :=
  Do (UserdataSetItem key value) Finish.

Definition set_log_context_fields (fields : gmap string string) : script unit :=
  Do (SetLogContextFields fields) Finish.

Definition external (c : ext) : script obj :=
  Do (External c)
     (fun r => match r with
               | inl e => Abort e
               | inr o => Finish o
               end).

(** [Assistant.__init__]: the instructions handed to [Agent.__init__]. *)
Definition Assistant_instructions : string :=
  "You are a helpful voice AI assistant. The user is interacting with you via voice, even if you perceive the conversation as text.
            You eagerly assist users with their questions by providing information from your extensive knowledge.
            Your responses are concise, to the point, and without any complex formatting or punctuation including emojis, asterisks, or other symbols.
            You are curious, friendly, and have a sense of humor.".

Definition Assistant_init : script obj :=
  external (Assistant_new Assistant_instructions).

(** [proc.userdata["vad"] = silero.VAD.load()] *)
Definition prewarm : script unit :=
  vad ← external VAD_load;
  userdata_setitem "vad" vad.

(** [lambda params: BVCTelephony() if params.participant.kind == SIP else BVC()] *)
Definition my_agent_noise_cancellation (params : NoiseCancellationParams)
  : noise_filter :=
  if (kind (participant params) =? PARTICIPANT_KIND_SIP)%Z
  then BVCTelephony
  else BVC.

Definition my_agent_room_options : RoomOptions :=
  {| audio_input := {| noise_cancellation := my_agent_noise_cancellation |} |}.

Definition my_agent_greeting : string :=
  "สวัดดีครับ ต้องการถามอะไรเกี่ยวกับ Contoso Bank ไหมครับ".

Definition my_agent (ctx : JobContext) : script unit :=
  set_log_context_fields {[ "room" := name (room ctx) ]};;
  speech_key ← environ_getitem "AZURE_SPEECH_KEY";
  speech_region ← environ_getitem "AZURE_SPEECH_REGION";
  stt ← external (AzureSTT speech_key speech_region "th-TH");
  llm ← external (InferenceLLM "openai/gpt-4.1-mini");
  tts ← external (InferenceTTS "cartesia/sonic-3"
                     "a167e0f3-df7e-4d52-a9c3-f949145efdab");
  turn_detection ← external MultilingualModel_new;
  vad ← userdata_getitem "vad";
  session ← external (AgentSession_new stt llm tts turn_detection vad true);
  agent ← Assistant_init;
  external (Session_start session agent (room ctx) my_agent_room_options);;
  background_audio ←
    external (BackgroundAudioPlayer_new
                [{| source := "sound/ringtone.mp3"; volume := "0.7" |}]);
  external (BackgroundAudio_start background_audio (room ctx) session);;
  external (Session_say session my_agent_greeting true);;
  external Ctx_connect;;
  mret tt.

(** The events a run adds to the history. *)
Definition added {A} (p : script A) (w : Job) : list sevent :=
  drop (length (j_history w)) (j_history (perform p w).2).

Definition externals (tr : list sevent) : list (ext * (exn + obj)) :=
  omap (fun ev => match ev with SExt c r => Some (c, r) | _ => None end) tr.

(** The place of a call in the order of the source. *)
Definition stage (c : ext) : nat :=
  match c with
  | VAD_load => 0
  | AzureSTT _ _ _ => 1
  | InferenceLLM _ => 2
  | InferenceTTS _ _ => 3
  | MultilingualModel_new => 4
  | AgentSession_new _ _ _ _ _ _ => 5
  | Assistant_new _ => 6
  | Session_start _ _ _ _ => 7
  | BackgroundAudioPlayer_new _ => 8
  | BackgroundAudio_start _ _ _ => 9
  | Session_say _ _ _ => 10
  | Ctx_connect => 11
  end.

Definition succeeded (r : exn + obj) : bool :=
  match r with inr _ => true | inl _ => false end.

Definition ext_failures (tr : list sevent) : list exn :=
  omap (fun ev => match ev with SExt _ (inl e) => Some e | _ => None end) tr.

(** The constructors of the four models the session is made of. *)
Definition is_model (c : ext) : bool :=
  match c with
  | AzureSTT _ _ _ | InferenceLLM _ | InferenceTTS _ _ | MultilingualModel_new => true
  | _ => false
  end.

End Session.

(** A process with the Azure settings, whose framework and plugins always
    answer, handing out the next free handle. *)
Module SessionSample.

Import Session.

Definition always_up (h : list sevent) (c : ext) : exn + obj :=
  inr (length h).

(** The speech plugin refuses to start. *)
Definition stt_down (h : list sevent) (c : ext) : exn + obj :=
  match c with
  | AzureSTT _ _ _ => inl (LibraryError "ValueError" "invalid speech region")
  | _ => inr (length h)
  end.

Definition azure_env : gmap string string :=
  {[ "AZURE_SPEECH_KEY" := "az-key"; "AZURE_SPEECH_REGION" := "southeastasia" ]}.

Definition job (env : gmap string string) (userdata : gmap string obj)
    (services : list sevent -> ext -> exn + obj) : Job :=
  {| j_environ := env; j_userdata := userdata; j_log_context_fields := ∅;
     j_services := services; j_history := [] |}.

Definition lobby : JobContext := {| room := {| name := "lobby" |} |}.

End SessionSample.

(* ===================================================================== *)
(** * Further observations on calls *)
(* ===================================================================== *)

Module Observe.

(** The replies that were responses. *)
Definition successes (replies : list (exn + pyval)) : list pyval :=
  omap (fun r => match r with inr v => Some v | inl _ => None end) replies.

(** A string made of white space only, as [int] sees white space. *)
Definition all_space (s : string) : bool :=
  forallb is_space (list_ascii_of_string s).

End Observe.

Import Observe.

Import Sample.

(* ===================================================================== *)
(** * The parser on sample literals *)
(* ===================================================================== *)

Example int_plain : int_ "3" = Some 3.
Proof. reflexivity. Qed.

Example int_spaces_sign_underscore :
  int_ " 42 " = Some 42 /\ int_ "+7" = Some 7 /\ int_ "-3" = Some (-3) /\
  int_ "1_000" = Some 1000 /\ int_ "007" = Some 7 /\ int_ "0" = Some 0.
Proof. repeat split; reflexivity. Qed.

Example int_rejects :
  int_ "" = None /\ int_ "abc" = None /\ int_ "3.5" = None /\ int_ "3s" = None /\
  int_ "1__0" = None /\ int_ "_1" = None /\ int_ "1_" = None /\ int_ "+_1" = None /\
  int_ "+ 3" = None /\ int_ "  " = None.
Proof. repeat split; reflexivity. Qed.

Lemma int_empty_string : int_ "" = None.
Proof. reflexivity. Qed.

Lemma truthy_false (delay : option string) :
  truthy delay = false -> delay = None \/ delay = Some "".
Proof. destruct delay as [[|c s]|]; cbn; intros; auto; discriminate. Qed.

Lemma truthy_Some_true (d : string) : truthy (Some d) = true <-> d ≠ "".
Proof. destruct d; cbn; split; intros; try congruence; try done. Qed.

Lemma sleep_overflows_true (n : Z) :
  sleep_overflows n = true <-> float_bound <= n.
Proof.
  unfold sleep_overflows, float_overflows.
  assert (0 < float_bound) by reflexivity.
  rewrite andb_true_iff, Z.ltb_lt, Z.leb_le. lia.
Qed.

Lemma sleep_overflows_false (n : Z) :
  sleep_overflows n = false <-> n < float_bound.
Proof.
  rewrite <- not_true_iff_false, sleep_overflows_true. lia.
Qed.

Lemma delay_usable_falsy (delay : option string) :
  truthy delay = false -> delay_usable delay = true.
Proof. unfold delay_usable. by intros ->. Qed.

Lemma delay_usable_int (d : string) (n : Z) :
  int_ d = Some n -> sleep_overflows n = false -> delay_usable (Some d) = true.
Proof.
  intros Hn Ho. unfold delay_usable. cbn [mbind option_bind]. rewrite Hn, Ho.
  apply orb_true_r.
Qed.

Lemma delay_usable_bad (d : string) :
  d <> "" -> int_ d = None -> delay_usable (Some d) = false.
Proof.
  intros Hne Hn. apply truthy_Some_true in Hne.
  unfold delay_usable. cbn [mbind option_bind]. rewrite Hn, Hne. reflexivity.
Qed.

Lemma delay_usable_overflow (d : string) (n : Z) :
  d <> "" -> int_ d = Some n -> sleep_overflows n = true ->
  delay_usable (Some d) = false.
Proof.
  intros Hne Hn Ho. apply truthy_Some_true in Hne.
  unfold delay_usable. cbn [mbind option_bind]. rewrite Hn, Hne, Ho. reflexivity.
Qed.

(* ===================================================================== *)
(** * One effect, one event *)
(* ===================================================================== *)

Section Frame.

Context {A : Type}.
Implicit Types (p : prog A) (w : World) (tid : nat).

Lemma handle_history tid e w :
  history (handle tid e w).2 = history w ++ [(tid, (respond e w).2)].
Proof. unfold handle. destruct (respond e w) as [x ev]. reflexivity. Qed.

Lemma handle_answer tid e w : (handle tid e w).1 = (respond e w).1.
Proof. unfold handle. destruct (respond e w). reflexivity. Qed.

Lemma handle_environ tid e w : environ (handle tid e w).2 = environ w.
Proof. unfold handle. destruct (respond e w). reflexivity. Qed.

Lemma handle_tavily tid e w : tavily (handle tid e w).2 = tavily w.
Proof. unfold handle. destruct (respond e w). reflexivity. Qed.

(** Running a program reads the environment and never writes it; the
    history only grows, by events of the running invocation. *)
Lemma run_frame tid p : forall w,
  environ (run tid p w).2 = environ w /\
  tavily (run tid p w).2 = tavily w /\
  exists tr, history (run tid p w).2 = history w ++ ((fun ev => (tid, ev)) <$> tr).
Proof.
  induction p as [a|e|e k IH]; intros w; cbn.
  - repeat split. exists []. by rewrite app_nil_r.
  - repeat split. exists []. by rewrite app_nil_r.
  - pose proof (handle_history tid e w) as Hh.
    pose proof (handle_environ tid e w) as He.
    pose proof (handle_tavily tid e w) as Ht.
    destruct (handle tid e w) as [x w']. cbn in *.
    destruct (IH x w') as (IHe & IHt & tr & IHh).
    repeat split; [congruence | congruence |].
    exists ((respond e w).2 :: tr).
    rewrite IHh, Hh, <- app_assoc. reflexivity.
Qed.

End Frame.

Lemma drop_history {A} (h l : list A) : drop (length h) (h ++ l) = l.
Proof. by rewrite drop_app_length. Qed.

Lemma untag (tid : nat) (tr : list event) :
  snd <$> ((fun ev => (tid, ev)) <$> tr) = tr.
Proof. induction tr as [|ev tr IH]; cbn; [done | by rewrite IH]. Qed.

Lemma invoke_environ tid q w : environ (invoke tid q w).2 = environ w.
Proof. apply run_frame. Qed.

Lemma invoke_tavily tid q w : tavily (invoke tid q w).2 = tavily w.
Proof. apply run_frame. Qed.

Lemma invoke_history tid q w :
  history (invoke tid q w).2 = history w ++ ((fun ev => (tid, ev)) <$> trace_of tid q w).
Proof.
  unfold trace_of.
  destruct (run_frame tid (search_web q) w) as (_ & _ & tr & Hh).
  unfold invoke. by rewrite Hh, drop_history, untag.
Qed.

(** Running to the end is stepping until nothing is left to do. *)
Lemma run_step {A} (tid : nat) (p : prog A) (w : World) :
  run tid p w = run tid (step tid p w).1 (step tid p w).2.
Proof.
  destruct p as [a|e|e k]; cbn; try done.
  by destruct (handle tid e w).
Qed.

(* ===================================================================== *)
(** * Every call follows one of the seven paths *)
(* ===================================================================== *)

Lemma reply_to_unfold tid q key w :
  tavily_search (tavily w)
    (((history w ++ [(tid, ELog "TAVILY SearchAgent thinking...")]) ++
      [(tid, EEnv "TAVILY_API_KEY" (Some key))]) ++
     [(tid, EInit key None)]) key q "advanced" = reply_to tid q key w.
Proof. unfold reply_to, request_prefix. by rewrite <- !app_assoc. Qed.

Ltac trace_norm := rewrite <- ?app_assoc, drop_history; cbn.

Lemma invoke_path tid q w : path tid q w (invoke tid q w).1 (trace_of tid q w).
Proof.
  unfold trace_of, invoke, search_web. cbn.
  destruct (environ w !! "TAVILY_API_KEY") as [key|] eqn:Hkey; cbn.
  2:{ trace_norm. by constructor. }
  destruct (tavily_init (tavily w) key) as [e|] eqn:Hinit; cbn.
  { trace_norm. by constructor. }
  rewrite reply_to_unfold.
  destruct (reply_to tid q key w) as [e|r] eqn:Hreply; cbn.
  { trace_norm. by constructor. }
  destruct (environ w !! "TAVILY_SEARCH_DELAY") as [[|c d']|] eqn:Hdelay; cbn.
  1,3: trace_norm; by eapply path_no_delay.
  set (d := String c d') in *.
  destruct (int_ d) as [n|] eqn:Hint; cbn.
  - unfold asyncio_sleep. destruct (sleep_overflows n) eqn:Hover; cbn.
    + trace_norm. by apply (path_overflow _ _ _ key r d n).
    + trace_norm. by apply (path_delay _ _ _ key r d n).
  - trace_norm. by apply (path_bad_delay _ _ _ key r d).
Qed.

Arguments invoke : simpl never.
Arguments trace_of : simpl never.

(** Case analysis on the path of a call: the outcome and the trace become
    explicit in every hypothesis and in the goal. *)
Ltac on_path tid q w :=
  let P := fresh "P" in
  let o := fresh "o" in
  let tr := fresh "tr" in
  pose proof (invoke_path tid q w) as P;
  remember (invoke tid q w).1 as o in *;
  remember (trace_of tid q w) as tr in *;
  destruct P;
  repeat match goal with
    | H : _ = (invoke tid q w).1 |- _ => clear H
    | H : _ = trace_of tid q w |- _ => clear H
    end;
  unfold request_prefix in *; cbn in *.

(** The setting cannot be both falsy and an integer literal, nor parse two
    ways. *)
Ltac delay_cases :=
  repeat match goal with
    | H : truthy _ = false |- _ => apply truthy_false in H; destruct H
    end;
  simplify_eq;
  try match goal with
    | H : int_ "" = Some _ |- _ => by rewrite int_empty_string in H
    end;
  try match goal with
    | H : sleep_overflows ?n = true, H' : sleep_overflows ?n = false |- _ =>
        by rewrite H in H'
    | H : sleep_overflows ?n = true, H' : ?n < 0 |- _ =>
        apply sleep_overflows_true in H;
        assert (0 < float_bound) by reflexivity; lia
    | H : sleep_overflows ?n = true, H' : ?n < float_bound |- _ =>
        apply sleep_overflows_true in H; lia
    end.

Ltac mem_cases :=
  repeat match goal with
    | H : _ ∈ [] |- _ => by apply elem_of_nil in H
    | H : _ ∈ [_] |- _ => apply list_elem_of_singleton in H
    | H : _ ∈ _ :: _ |- _ => apply elem_of_cons in H; destruct H
    end;
  simplify_eq.

(* ===================================================================== *)
(** * The search request *)
(* ===================================================================== *)

(** C1.  One call of [search_web] sends at most one search request on every
    path; every request it sends carries the caller's query and the depth
    "advanced"; and when the credential is set and the client accepts it, the
    call sends exactly one request, with that key, the query and "advanced". *)
Theorem search_web_one_request (tid : nat) (q : string) (w : World) :
  (length (searches (trace_of tid q w)) ≤ 1)%nat /\
  (forall req, req ∈ searches (trace_of tid q w) ->
     req.1.2 = q /\ req.2 = "advanced") /\
  (forall key,
     environ w !! "TAVILY_API_KEY" = Some key ->
     tavily_init (tavily w) key = None ->
     searches (trace_of tid q w) = [(key, q, "advanced")]).
Proof.
  split; [|split].
  - on_path tid q w; lia.
  - intros req Hreq. on_path tid q w; mem_cases; done.
  - intros key Hkey Hinit. on_path tid q w; congruence.
Qed.

Lemma search_web_one_request_witness :
  searches (trace_of 0 "current weather in Bangkok" (world env_key tavily_up))
  = [("tvly-test", "current weather in Bangkok", "advanced")].
Proof.
  apply (proj2 (proj2 (search_web_one_request 0 "current weather in Bangkok"
                         (world env_key tavily_up)))); reflexivity.
Defined.

(* ===================================================================== *)
(** * The returned value *)
(* ===================================================================== *)

(** C2.  When the search of a call succeeds with response [r], any value the
    call returns is [r] itself, the very value the client produced (and the
    one that was printed); the call does return it whenever the delay setting
    is unset, empty or an integer literal that [asyncio.sleep] accepts. *)
Theorem search_web_returns_response (tid : nat) (q : string) (w : World) (r : pyval) :
  inr r ∈ search_replies (trace_of tid q w) ->
  (forall v, (invoke tid q w).1 = Returned v -> v = r) /\
  prints (trace_of tid q w) = [r] /\
  (delay_usable (environ w !! "TAVILY_SEARCH_DELAY") = true ->
   (invoke tid q w).1 = Returned r).
Proof.
  intros Hr. on_path tid q w; mem_cases.
  all: repeat split; try congruence.
  all: intros Hu; exfalso.
  all: match goal with H : environ _ !! "TAVILY_SEARCH_DELAY" = _ |- _ =>
         rewrite H in Hu end.
  - rewrite delay_usable_bad in Hu by done. discriminate Hu.
  - erewrite delay_usable_overflow in Hu by done. discriminate Hu.
Qed.

Lemma search_web_returns_response_witness :
  (invoke 0 "current weather in Bangkok" (world env_key tavily_up)).1
  = Returned (response_for "current weather in Bangkok").
Proof.
  apply (search_web_returns_response 0 "current weather in Bangkok"
           (world env_key tavily_up) (response_for "current weather in Bangkok")).
  - vm_compute. apply list_elem_of_here.
  - reflexivity.
Defined.

(* ===================================================================== *)
(** * Failures *)
(* ===================================================================== *)

(** C5.  When the search of a call fails with [e], the call raises that same
    [e]; the client was asked once and only once; nothing was printed, no
    sleep took place, and the failed request is the last thing the call
    did. *)
Theorem search_web_propagates_failure (tid : nat) (q : string) (w : World) (e : exn) :
  inl e ∈ search_replies (trace_of tid q w) ->
  (invoke tid q w).1 = Raised e /\
  search_replies (trace_of tid q w) = [inl e] /\
  length (searches (trace_of tid q w)) = 1%nat /\
  prints (trace_of tid q w) = [] /\
  sleeps (trace_of tid q w) = [] /\
  exists key, last (trace_of tid q w) = Some (ESearch key q "advanced" (inl e)).
Proof.
  intros He. on_path tid q w; mem_cases.
  repeat split; eauto.
Qed.

Lemma search_web_propagates_failure_witness :
  (invoke 0 "latest exchange rate USD to THB" (world env_key tavily_unauthorized)).1
  = Raised (LibraryError "InvalidAPIKeyError" "Unauthorized: missing or invalid API key.").
Proof.
  apply (search_web_propagates_failure 0 "latest exchange rate USD to THB"
           (world env_key tavily_unauthorized)).
  vm_compute. apply list_elem_of_here.
Defined.

(** C7.  When the credential is not in the environment, the call fails at
    once with [KeyError], at the lookup: the only things it did are the first
    log line and the failed lookup; no client was built and no search request
    was sent. *)
Theorem search_web_missing_credential (tid : nat) (q : string) (w : World) :
  environ w !! "TAVILY_API_KEY" = None ->
  (invoke tid q w).1 = Raised (KeyError "TAVILY_API_KEY") /\
  trace_of tid q w =
    [ELog "TAVILY SearchAgent thinking..."; EEnv "TAVILY_API_KEY" None] /\
  searches (trace_of tid q w) = [].
Proof.
  intros Hkey. on_path tid q w; try congruence. done.
Qed.

Lemma search_web_missing_credential_witness :
  (invoke 0 "current weather in Bangkok" (world ∅ tavily_up)).1
  = Raised (KeyError "TAVILY_API_KEY").
Proof.
  apply (search_web_missing_credential 0 "current weather in Bangkok" (world ∅ tavily_up)).
  reflexivity.
Defined.

(* ===================================================================== *)
(** * The delay setting *)
(* ===================================================================== *)

Lemma sleeps_by_outcome (tid : nat) (q : string) (w : World) (d : string) (n : Z) :
  environ w !! "TAVILY_SEARCH_DELAY" = Some d ->
  int_ d = Some n ->
  sleeps (trace_of tid q w) =
    match (invoke tid q w).1 with
    | Returned _ => [n]
    | Raised _ => []
    end.
Proof.
  intros Hd Hn. on_path tid q w; delay_cases; done.
Qed.

(** C3, as the specification has it, fails: the setting 2 followed by 308
    zeros is a non-negative integer literal, yet the call whose search
    succeeded neither sleeps that long nor returns; [asyncio.sleep] raises
    [OverflowError]. *)
Lemma search_web_huge_delay_overflows :
  ~ (forall tid q w d n r,
       environ w !! "TAVILY_SEARCH_DELAY" = Some d ->
       int_ d = Some n ->
       0 <= n ->
       inr r ∈ search_replies (trace_of tid q w) ->
       (invoke tid q w).1 = Returned r /\ sleeps (trace_of tid q w) = [n]).
Proof.
  intros H.
  destruct (H 0%nat "latest exchange rate USD to THB"
              (world (env_delay huge_delay) tavily_up) huge_delay
              (2 * 10 ^ 308)
              (response_for "latest exchange rate USD to THB")) as [Hret _].
  - reflexivity.
  - vm_compute. reflexivity.
  - vm_compute. discriminate.
  - vm_compute. apply list_elem_of_here.
  - assert (Hraise :
      (invoke 0 "latest exchange rate USD to THB"
         (world (env_delay huge_delay) tavily_up)).1
      = Raised (OverflowError "int too large to convert to float"))
      by (vm_compute; reflexivity).
    rewrite Hraise in Hret. discriminate Hret.
Qed.

(** C3, amended.  With the delay setting an integer literal for [n >= 0]
    that a [float] can hold, [n < 2^1024 - 2^970]: a call whose search
    succeeds does, after the search, print the response, log, read the setting
    and sleep [n] seconds, once, as the last thing before it returns the
    response; it is suspended for [n] seconds in all.  In a series of calls
    every call that returns has slept [n] seconds exactly once and every call
    that raised has not slept: the sleep of one call does not depend on the
    calls before it. *)
Theorem search_web_sleeps_delay (d : string) (n : Z) :
  int_ d = Some n ->
  0 <= n ->
  n < float_bound ->
  (forall tid q w r,
     environ w !! "TAVILY_SEARCH_DELAY" = Some d ->
     inr r ∈ search_replies (trace_of tid q w) ->
     (invoke tid q w).1 = Returned r /\
     sleeps (trace_of tid q w) = [n] /\
     suspended_seconds (trace_of tid q w) = n /\
     exists key,
       trace_of tid q w =
         request_prefix key ++
         [ESearch key q "advanced" (inr r); EPrint r;
          ELog "TAVILY SearchAgent finished. simulating delay...";
          EEnv "TAVILY_SEARCH_DELAY" (Some d);
          ESleep n]) /\
  (forall qs first w,
     environ w !! "TAVILY_SEARCH_DELAY" = Some d ->
     Forall (fun ot => sleeps ot.2 =
                         match ot.1 with
                         | Returned _ => [n]
                         | Raised _ => []
                         end)
            (invoke_all first qs w).1).
Proof.
  intros Hn Hpos Hsmall. split.
  - intros tid q w r Hd Hr. on_path tid q w; mem_cases; delay_cases.
    repeat split; eauto. unfold suspended_seconds. cbn. lia.
  - induction qs as [|q qs IH]; intros first w Hd; cbn [invoke_all fst snd].
    + constructor.
    + constructor.
      * cbn [fst snd]. by apply (sleeps_by_outcome first q w d n).
      * apply IH. by rewrite invoke_environ.
Qed.

Lemma search_web_sleeps_delay_witness :
  sleeps (trace_of 0 "latest exchange rate USD to THB" (world (env_delay "3") tavily_up))
  = [3].
Proof.
  refine (proj1 (proj2 (proj1 (search_web_sleeps_delay "3" 3 _ _ _) 0%nat
                   "latest exchange rate USD to THB"
                   (world (env_delay "3") tavily_up)
                   (response_for "latest exchange rate USD to THB") _ _))).
  - reflexivity.
  - lia.
  - reflexivity.
  - reflexivity.
  - vm_compute. apply list_elem_of_here.
Defined.

(** C4.  With the delay setting absent the call never sleeps; when its search
    succeeds the call returns the response, and all it does after the search
    is print the response, log, and read the (absent) setting. *)
Theorem search_web_no_delay_when_unset (tid : nat) (q : string) (w : World) :
  environ w !! "TAVILY_SEARCH_DELAY" = None ->
  sleeps (trace_of tid q w) = [] /\
  (forall r,
     inr r ∈ search_replies (trace_of tid q w) ->
     (invoke tid q w).1 = Returned r /\
     exists key,
       trace_of tid q w =
         request_prefix key ++
         [ESearch key q "advanced" (inr r); EPrint r;
          ELog "TAVILY SearchAgent finished. simulating delay...";
          EEnv "TAVILY_SEARCH_DELAY" None]).
Proof.
  intros Hd. split.
  - on_path tid q w; congruence.
  - intros r Hr. on_path tid q w; mem_cases; try congruence.
    rewrite Hd. split; eauto.
Qed.

Lemma search_web_no_delay_when_unset_witness :
  sleeps (trace_of 0 "current weather in Bangkok" (world env_key tavily_up)) = [].
Proof.
  apply (search_web_no_delay_when_unset 0 "current weather in Bangkok"
           (world env_key tavily_up)).
  reflexivity.
Defined.

(** C6, as the specification has it, fails: with the setting "abc" the call
    does not complete normally although its search succeeded. *)
Lemma search_web_malformed_delay_not_skipped :
  ~ (forall tid q w d r,
       environ w !! "TAVILY_SEARCH_DELAY" = Some d ->
       int_ d = None ->
       inr r ∈ search_replies (trace_of tid q w) ->
       (invoke tid q w).1 = Returned r).
Proof.
  intros H.
  specialize (H 0%nat "latest exchange rate USD to THB"
                (world (env_delay "abc") tavily_up) "abc"
                (response_for "latest exchange rate USD to THB")).
  assert (Hraise :
    (invoke 0 "latest exchange rate USD to THB"
       (world (env_delay "abc") tavily_up)).1 = Raised (ValueError "abc"))
    by reflexivity.
  rewrite Hraise in H.
  discriminate H.
  - reflexivity.
  - reflexivity.
  - vm_compute. apply list_elem_of_here.
Qed.

(** C6, amended.  With the delay setting present, not empty and not an
    integer literal (an ASCII string, the range of the model of [int]), a call
    whose search succeeded raises [ValueError] for that literal: the response
    was printed but is not returned, nothing was slept, and reading the
    setting is the last thing the call did. *)
Theorem search_web_malformed_delay_raises
    (tid : nat) (q : string) (w : World) (d : string) (r : pyval) :
  environ w !! "TAVILY_SEARCH_DELAY" = Some d ->
  d <> "" ->
  is_ascii d = true ->
  int_ d = None ->
  inr r ∈ search_replies (trace_of tid q w) ->
  (invoke tid q w).1 = Raised (ValueError d) /\
  prints (trace_of tid q w) = [r] /\
  sleeps (trace_of tid q w) = [] /\
  last (trace_of tid q w) = Some (EEnv "TAVILY_SEARCH_DELAY" (Some d)).
Proof.
  intros Hd Hne _ Hn Hr. on_path tid q w; mem_cases; delay_cases; done.
Qed.

Lemma search_web_malformed_delay_raises_witness :
  (invoke 0 "latest exchange rate USD to THB" (world (env_delay "abc") tavily_up)).1
  = Raised (ValueError "abc").
Proof.
  apply (search_web_malformed_delay_raises 0 "latest exchange rate USD to THB"
           (world (env_delay "abc") tavily_up) "abc"
           (response_for "latest exchange rate USD to THB")).
  - reflexivity.
  - discriminate.
  - reflexivity.
  - reflexivity.
  - vm_compute. apply list_elem_of_here.
Defined.

(** C9.  With the delay setting present but empty, the call goes exactly as it
    would with the setting removed: same outcome, same visible events; it
    never sleeps, and when its search succeeds it returns the response although
    [int("")] would have raised. *)
Theorem search_web_empty_delay_as_unset (tid : nat) (q : string) (w : World) :
  environ w !! "TAVILY_SEARCH_DELAY" = Some "" ->
  (invoke tid q w).1
    = (invoke tid q (with_environ (delete "TAVILY_SEARCH_DELAY" (environ w)) w)).1 /\
  visible (trace_of tid q w)
    = visible (trace_of tid q (with_environ (delete "TAVILY_SEARCH_DELAY" (environ w)) w)) /\
  sleeps (trace_of tid q w) = [] /\
  (forall r, inr r ∈ search_replies (trace_of tid q w) ->
             (invoke tid q w).1 = Returned r) /\
  int_ "" = None.
Proof.
  intros Hd.
  set (w0 := with_environ (delete "TAVILY_SEARCH_DELAY" (environ w)) w).
  assert (Hkey0 : environ w0 !! "TAVILY_API_KEY" = environ w !! "TAVILY_API_KEY")
    by (cbn; by rewrite lookup_delete_ne).
  assert (Hd0 : environ w0 !! "TAVILY_SEARCH_DELAY" = None)
    by (cbn; by rewrite lookup_delete_eq).
  assert (Ht0 : tavily w0 = tavily w) by reflexivity.
  assert (Hr0 : forall key, reply_to tid q key w0 = reply_to tid q key w)
    by reflexivity.
  clearbody w0.
  repeat split.
  - on_path tid q w; on_path tid q w0;
      rewrite ?Hkey0, ?Hd0, ?Ht0, ?Hr0 in *; delay_cases; congruence.
  - on_path tid q w; on_path tid q w0;
      rewrite ?Hkey0, ?Hd0, ?Ht0, ?Hr0 in *; delay_cases; congruence.
  - on_path tid q w; delay_cases; done.
  - intros r Hr. on_path tid q w; mem_cases; delay_cases; done.
Qed.

Lemma search_web_empty_delay_as_unset_witness :
  sleeps (trace_of 0 "current weather in Bangkok" (world (env_delay "") tavily_up)) = [].
Proof.
  apply (search_web_empty_delay_as_unset 0 "current weather in Bangkok"
           (world (env_delay "") tavily_up)).
  reflexivity.
Defined.

(** C10.  The signature of the tool announces a [str]; a call that returns
    hands back the client's response as it is, and when that response is a
    [dict], as Tavily's are, the returned value is not a [str]. *)
Theorem search_web_return_type_mismatch (tid : nat) (q : string) (w : World) (v : pyval) :
  (invoke tid q w).1 = Returned v ->
  (forall r, inr r ∈ search_replies (trace_of tid q w) -> type_of r = TDict) ->
  sig_returns search_web_signature = TStr /\
  search_replies (trace_of tid q w) = [inr v] /\
  type_of v = TDict /\
  isinstance v (sig_returns search_web_signature) = false.
Proof.
  intros Hv Hdict.
  assert (Hin : search_replies (trace_of tid q w) = [inr v]).
  { revert Hv. clear Hdict. on_path tid q w; intros; simplify_eq; done. }
  assert (Ht : type_of v = TDict).
  { apply Hdict. rewrite Hin. apply list_elem_of_here. }
  repeat split; try done.
  destruct v; cbn in *; congruence.
Qed.

Lemma search_web_return_type_mismatch_witness :
  isinstance (response_for "current weather in Bangkok")
             (sig_returns search_web_signature) = false.
Proof.
  apply (search_web_return_type_mismatch 0 "current weather in Bangkok"
           (world env_key tavily_up) (response_for "current weather in Bangkok")).
  - reflexivity.
  - intros r Hr. vm_compute in Hr.
    apply list_elem_of_singleton in Hr. by simplify_eq.
Defined.

(* ===================================================================== *)
(** * Interleaved invocations *)
(* ===================================================================== *)

Section Pool.

Context {A : Type}.
Implicit Types (p : prog A) (evs : list event).

Lemma trace_to_snoc p evs e k w :
  trace_to p evs (Vis e k) ->
  trace_to p (evs ++ [(respond e w).2]) (k (respond e w).1).
Proof.
  revert p. induction evs as [|ev evs IH]; intros p; cbn.
  - intros ->. exists w. done.
  - destruct p as [a|x|e' k']; try done.
    intros (w' & -> & H). exists w'. split; [done|]. by apply IH.
Qed.

End Pool.

Lemma events_of_app tid h1 h2 :
  events_of tid (h1 ++ h2) = events_of tid h1 ++ events_of tid h2.
Proof. unfold events_of. by rewrite filter_app, fmap_app. Qed.

Lemma events_of_own tid ev : events_of tid [(tid, ev)] = [ev].
Proof.
  unfold events_of. rewrite filter_cons_True by done. reflexivity.
Qed.

Lemma events_of_other tid tid' ev : tid' <> tid -> events_of tid [(tid', ev)] = [].
Proof.
  intros Hne. unfold events_of. rewrite filter_cons_False by done. reflexivity.
Qed.

Lemma pool_inv_spawn qs : pool_inv qs (spawn qs) [].
Proof.
  intros tid p Hp. unfold spawn in Hp.
  rewrite list_lookup_fmap in Hp.
  destruct (qs !! tid) as [q|] eqn:Hq; [|done].
  cbn in Hp. exists q. split; [done|]. cbn. congruence.
Qed.

(** One scheduling step keeps the invariant, leaves the environment and the
    Tavily side alone, and at most appends one event. *)
Lemma sched_step_inv qs t ps w h0 hn :
  history w = h0 ++ hn ->
  pool_inv qs ps hn ->
  exists hn',
    history (sched_step t ps w).2 = h0 ++ hn' /\
    pool_inv qs (sched_step t ps w).1 hn' /\
    environ (sched_step t ps w).2 = environ w /\
    tavily (sched_step t ps w).2 = tavily w.
Proof.
  intros Hh Hinv. unfold sched_step.
  destruct (ps !! t) as [p|] eqn:Hp; [|by exists hn].
  destruct p as [v|x|e k]; cbn.
  1,2: exists hn; repeat split; try done; by rewrite list_insert_id.
  pose proof (handle_history t e w) as Hh'.
  pose proof (handle_answer t e w) as Hx.
  pose proof (handle_environ t e w) as He.
  pose proof (handle_tavily t e w) as Ht.
  destruct (handle t e w) as [x w']. cbn in *. subst x.
  exists (hn ++ [(t, (respond e w).2)]).
  repeat split; try done.
  - by rewrite Hh', Hh, <- app_assoc.
  - intros tid p' Hp'.
    destruct (decide (tid = t)) as [->|Hne].
    + rewrite list_lookup_insert_eq in Hp' by (by eapply lookup_lt_Some).
      simplify_eq.
      destruct (Hinv t _ Hp) as (q & Hq & Htr).
      exists q. split; [done|].
      rewrite events_of_app, events_of_own. by apply trace_to_snoc.
    + rewrite list_lookup_insert_ne in Hp' by done.
      destruct (Hinv tid _ Hp') as (q & Hq & Htr).
      exists q. split; [done|].
      rewrite events_of_app, events_of_other by done. by rewrite app_nil_r.
Qed.

Lemma run_pool_inv qs sched : forall ps w h0 hn,
  history w = h0 ++ hn ->
  pool_inv qs ps hn ->
  exists hn',
    history (run_pool sched ps w).2 = h0 ++ hn' /\
    pool_inv qs (run_pool sched ps w).1 hn' /\
    environ (run_pool sched ps w).2 = environ w /\
    tavily (run_pool sched ps w).2 = tavily w.
Proof.
  induction sched as [|t sched IH]; intros ps w h0 hn Hh Hinv; cbn.
  - by exists hn.
  - destruct (sched_step_inv qs t ps w h0 hn Hh Hinv) as (hn1 & Hh1 & Hinv1 & He1 & Ht1).
    destruct (sched_step t ps w) as [ps1 w1]. cbn in *.
    destruct (IH ps1 w1 h0 hn1 Hh1 Hinv1) as (hn2 & Hh2 & Hinv2 & He2 & Ht2).
    exists hn2. repeat split; try done; congruence.
Qed.

(** A task that has returned [v] sent one request, for its own query, and [v]
    is the reply to that request. *)
Lemma trace_to_returned q evs v :
  trace_to (search_web q) evs (Ret v) ->
  exists key,
    searches evs = [(key, q, "advanced")] /\
    search_replies evs = [inr v].
Proof.
  unfold search_web. cbn.
  intros H.
  repeat (first
    [ match goal with
      | H : False |- _ => destruct H
      | H : _ = Ret _ |- _ => discriminate H
      | H : Ret _ = Ret _ |- _ => injection H as ->
      | H : exists w, _ |- _ => destruct H as (? & -> & H)
      | H : trace_to _ ?l _ |- _ => destruct l; cbn in H
      end
    | match type of H with
      | context [truthy (environ ?w !! ?k)] =>
          destruct (environ w !! k) as [[|? ?]|]; cbn in H
      | context [match environ ?w !! ?k with _ => _ end] =>
          destruct (environ w !! k); cbn in H
      | context [match tavily_init ?t ?k with _ => _ end] =>
          destruct (tavily_init t k); cbn in H
      | context [match tavily_search ?t ?h ?k ?q ?d with _ => _ end] =>
          destruct (tavily_search t h k q d) eqn:?; cbn in H
      | context [match int_ ?d with _ => _ end] =>
          destruct (int_ d); cbn in H
      | context [asyncio_sleep ?secs] =>
          unfold asyncio_sleep in H; destruct (sleep_overflows secs); cbn in H
      end ]).
  all: cbn; eexists; split; [reflexivity|]; by inversion H.
Qed.

(** C8.  However the event loop interleaves the calls in flight, a call that
    has returned [v] sent exactly one request, for its own query, and [v] is
    the reply recorded for that request; running the calls changes neither the
    environment nor the Tavily side, the tool keeps nothing between calls; and
    two calls with the same query that read the same credential and delay
    setting, meet the same client constructor and get the same reply end the
    same way, whatever else differs (history, other settings, invocation). *)
Theorem search_web_no_cross_talk :
  (forall qs sched w tid v,
     (run_pool sched (spawn qs) w).1 !! tid = Some (Ret v) ->
     exists q key,
       qs !! tid = Some q /\
       searches (pool_events sched qs w tid) = [(key, q, "advanced")] /\
       search_replies (pool_events sched qs w tid) = [inr v]) /\
  (forall qs sched w,
     environ (run_pool sched (spawn qs) w).2 = environ w /\
     tavily (run_pool sched (spawn qs) w).2 = tavily w) /\
  (forall tid1 tid2 q w1 w2,
     environ w1 !! "TAVILY_API_KEY" = environ w2 !! "TAVILY_API_KEY" ->
     environ w1 !! "TAVILY_SEARCH_DELAY" = environ w2 !! "TAVILY_SEARCH_DELAY" ->
     (forall key, tavily_init (tavily w1) key = tavily_init (tavily w2) key) ->
     search_replies (trace_of tid1 q w1) = search_replies (trace_of tid2 q w2) ->
     (invoke tid1 q w1).1 = (invoke tid2 q w2).1).
Proof.
  split; [|split].
  - intros qs sched w tid v Hv.
    destruct (run_pool_inv qs sched (spawn qs) w (history w) [])
      as (hn & Hh & Hinv & _ & _);
      [by rewrite app_nil_r | apply pool_inv_spawn |].
    destruct (Hinv tid _ Hv) as (q & Hq & Htr).
    apply trace_to_returned in Htr as (key & Hs & Hr).
    exists q, key. unfold pool_events. rewrite Hh, drop_history. done.
  - intros qs sched w.
    destruct (run_pool_inv qs sched (spawn qs) w (history w) [])
      as (hn & _ & _ & He & Ht);
      [by rewrite app_nil_r | apply pool_inv_spawn |].
    done.
  - intros tid1 tid2 q w1 w2 Hkey Hdelay Hinit Hreply.
    on_path tid1 q w1; on_path tid2 q w2;
      rewrite ?Hinit in *; simplify_eq; delay_cases; congruence.
Qed.

Lemma search_web_no_cross_talk_witness :
  exists q key,
    ["current weather in Bangkok"; "latest exchange rate USD to THB"] !! 1%nat = Some q /\
    searches
      (pool_events [0; 1; 1; 0; 0; 1; 1; 0; 1; 0; 0; 1; 1; 0; 0; 1; 1]%nat
         ["current weather in Bangkok"; "latest exchange rate USD to THB"]
         (world (env_delay "3") tavily_up) 1)
    = [(key, q, "advanced")] /\
    search_replies
      (pool_events [0; 1; 1; 0; 0; 1; 1; 0; 1; 0; 0; 1; 1; 0; 0; 1; 1]%nat
         ["current weather in Bangkok"; "latest exchange rate USD to THB"]
         (world (env_delay "3") tavily_up) 1)
    = [inr (response_for "latest exchange rate USD to THB")].
Proof.
  apply (proj1 search_web_no_cross_talk).
  reflexivity.
Defined.

(* ===================================================================== *)
(** * Sample runs *)
(* ===================================================================== *)

(** Three calls in a row against a plan that allows two searches: the first
    two return after sleeping three seconds each, the third fails at its
    request and does not sleep. *)
Example three_calls_quota_two :
  (fun ot => (match ot.1 with Returned _ => true | Raised _ => false end,
              sleeps ot.2))
    <$> (invoke_all 0 ["a"; "b"; "c"] (world (env_delay "3") tavily_quota2)).1
  = [(true, [3]); (true, [3]); (false, [])].
Proof. reflexivity. Qed.

(** Two calls in flight, stepped in turn: the requests alternate in the
    history and each task ends with the reply to its own query. *)
Example two_calls_interleaved :
  let r := run_pool [0; 1; 0; 1; 0; 1; 0; 1; 0; 1; 0; 1; 0; 1; 0; 1]%nat
             (spawn ["a"; "b"]) (world (env_delay "3") tavily_up) in
  result_of <$> r.1
    = [Some (Returned (response_for "a")); Some (Returned (response_for "b"))] /\
  omap (fun te => match te.2 with
                  | ESearch _ q _ _ => Some (te.1, q)
                  | ESleep n => Some (te.1, "sleep")
                  | _ => None
                  end) (history r.2)
    = [(0%nat, "a"); (1%nat, "b"); (0%nat, "sleep"); (1%nat, "sleep")].
Proof. split; reflexivity. Qed.

(* ===================================================================== *)
(** * More on a single call *)
(* ===================================================================== *)

(** When the credential is set but the client constructor refuses it, the
    call raises the constructor's exception; it has logged, read the
    credential and tried to build the client, and nothing else: no request,
    no print, no sleep. *)
Theorem search_web_client_refused (tid : nat) (q : string) (w : World) (key : string) (e : exn) :
  environ w !! "TAVILY_API_KEY" = Some key ->
  tavily_init (tavily w) key = Some e ->
  (invoke tid q w).1 = Raised e /\
  trace_of tid q w =
    [ELog "TAVILY SearchAgent thinking...";
     EEnv "TAVILY_API_KEY" (Some key);
     EInit key (Some e)] /\
  searches (trace_of tid q w) = [].
Proof.
  intros Hkey Hinit. on_path tid q w; simplify_eq; done.
Qed.

Lemma search_web_client_refused_witness :
  (invoke 0 "current weather in Bangkok"
     (world {[ "TAVILY_API_KEY" := "" ]} tavily_up)).1
  = Raised (LibraryError "MissingAPIKeyError" "No API key provided.").
Proof.
  apply (search_web_client_refused 0 "current weather in Bangkok"
           (world {[ "TAVILY_API_KEY" := "" ]} tavily_up) "").
  - reflexivity.
  - reflexivity.
Defined.

(** A negative delay setting is passed on to [asyncio.sleep] as it is: the
    call sleeps once, with the negative value, is suspended for no time, and
    returns the response. *)
Theorem search_web_negative_delay
    (tid : nat) (q : string) (w : World) (d : string) (n : Z) (r : pyval) :
  environ w !! "TAVILY_SEARCH_DELAY" = Some d ->
  int_ d = Some n ->
  n < 0 ->
  inr r ∈ search_replies (trace_of tid q w) ->
  (invoke tid q w).1 = Returned r /\
  sleeps (trace_of tid q w) = [n] /\
  suspended_seconds (trace_of tid q w) = 0.
Proof.
  intros Hd Hn Hneg Hr. on_path tid q w; mem_cases; delay_cases.
  repeat split. unfold suspended_seconds. cbn. lia.
Qed.

Lemma search_web_negative_delay_witness :
  suspended_seconds
    (trace_of 0 "current weather in Bangkok" (world (env_delay "-5") tavily_up)) = 0.
Proof.
  apply (search_web_negative_delay 0 "current weather in Bangkok"
           (world (env_delay "-5") tavily_up) "-5" (-5)
           (response_for "current weather in Bangkok")).
  - reflexivity.
  - reflexivity.
  - lia.
  - vm_compute. apply list_elem_of_here.
Defined.

(** With the delay setting, if any, an ASCII string (the range in which
    [int_] decides as [int] does): a call returns exactly when its search
    succeeded and the setting is unset, empty, or an integer literal that
    [asyncio.sleep] accepts, one below [2^1024 - 2^970]. *)
Theorem search_web_returns_iff (tid : nat) (q : string) (w : World) :
  (forall d, environ w !! "TAVILY_SEARCH_DELAY" = Some d -> is_ascii d = true) ->
  ((exists v, (invoke tid q w).1 = Returned v) <->
   (exists r, inr r ∈ search_replies (trace_of tid q w)) /\
   delay_usable (environ w !! "TAVILY_SEARCH_DELAY") = true).
Proof.
  intros _. split.
  - intros [v Hv]. on_path tid q w; simplify_eq.
    + split; [eexists; apply list_elem_of_here|]. by apply delay_usable_falsy.
    + split; [eexists; apply list_elem_of_here|].
      match goal with H : environ w !! "TAVILY_SEARCH_DELAY" = _ |- _ => rewrite H end.
      by eapply delay_usable_int.
  - intros [[r0 Hr] Hu]. on_path tid q w; mem_cases; eauto.
    all: exfalso.
    all: match goal with H : environ _ !! "TAVILY_SEARCH_DELAY" = _ |- _ =>
           rewrite H in Hu end.
    + rewrite delay_usable_bad in Hu by done. discriminate Hu.
    + erewrite delay_usable_overflow in Hu by done. discriminate Hu.
Qed.

Lemma search_web_returns_iff_witness :
  exists v, (invoke 0 "current weather in Bangkok" (world (env_delay "3") tavily_up)).1
            = Returned v.
Proof.
  apply (proj2 (search_web_returns_iff 0 "current weather in Bangkok"
                  (world (env_delay "3") tavily_up)
                  ltac:(intros d Hd; vm_compute in Hd; by simplify_eq))).
  split.
  - exists (response_for "current weather in Bangkok").
    vm_compute. apply list_elem_of_here.
  - reflexivity.
Defined.

(** Every call starts with the first log line.  It prints exactly the
    response of its search, if there was one, and writes the second log line
    exactly then; any sleep comes after the print. *)
Theorem search_web_log_and_print (tid : nat) (q : string) (w : World) :
  head (trace_of tid q w) = Some (ELog "TAVILY SearchAgent thinking...") /\
  prints (trace_of tid q w) = successes (search_replies (trace_of tid q w)) /\
  (ELog "TAVILY SearchAgent finished. simulating delay..." ∈ trace_of tid q w <->
   exists r, inr r ∈ search_replies (trace_of tid q w)) /\
  (forall i j n v,
     trace_of tid q w !! i = Some (ESleep n) ->
     trace_of tid q w !! j = Some (EPrint v) ->
     (j < i)%nat).
Proof.
  split; [|split; [|split; [split|]]].
  - on_path tid q w; done.
  - on_path tid q w; done.
  - intros Hlog. on_path tid q w; mem_cases; eexists; apply list_elem_of_here.
  - intros [r0 Hr]. on_path tid q w; mem_cases;
      do 5 apply list_elem_of_further; apply list_elem_of_here.
  - intros i j n0 v Hi Hj. on_path tid q w.
    all: do 9 (try destruct i as [|i]; cbn in Hi; try discriminate Hi).
    all: do 9 (try destruct j as [|j]; cbn in Hj; try discriminate Hj).
    all: lia.
Qed.

(** The only settings a call reads are the credential and the delay, each as
    the environment has it; the client is built with, and every request
    carries, the credential read in that same call. *)
Theorem search_web_reads_environment (tid : nat) (q : string) (w : World) :
  (forall name v,
     EEnv name v ∈ trace_of tid q w ->
     (name = "TAVILY_API_KEY" \/ name = "TAVILY_SEARCH_DELAY") /\
     v = environ w !! name) /\
  (forall key failure,
     EInit key failure ∈ trace_of tid q w ->
     environ w !! "TAVILY_API_KEY" = Some key) /\
  (forall req,
     req ∈ searches (trace_of tid q w) ->
     environ w !! "TAVILY_API_KEY" = Some req.1.1).
Proof.
  on_path tid q w; repeat split; intros; mem_cases; auto.
Qed.

Lemma search_web_reads_environment_witness :
  environ (world env_key tavily_up) !! "TAVILY_API_KEY" = Some "tvly-test".
Proof.
  apply (proj2 (proj2 (search_web_reads_environment 0 "current weather in Bangkok"
                         (world env_key tavily_up)))
           ("tvly-test", "current weather in Bangkok", "advanced")).
  vm_compute. apply list_elem_of_here.
Defined.

Lemma skip_spaces_all_space (s : string) :
  all_space s = true -> skip_spaces s = "".
Proof.
  unfold all_space. induction s as [|c s IH]; cbn; [done|].
  destruct (is_space c); cbn; [exact IH | discriminate].
Qed.

Lemma int_all_space (s : string) : all_space s = true -> int_ s = None.
Proof.
  intros Hs. unfold int_. by rewrite skip_spaces_all_space.
Qed.

(** A delay setting that is not empty but holds white space only is taken
    for a setting and fails to parse: a call whose search succeeded raises
    [ValueError] and does not sleep. *)
Theorem search_web_blank_delay_raises
    (tid : nat) (q : string) (w : World) (d : string) (r : pyval) :
  environ w !! "TAVILY_SEARCH_DELAY" = Some d ->
  d <> "" ->
  all_space d = true ->
  inr r ∈ search_replies (trace_of tid q w) ->
  (invoke tid q w).1 = Raised (ValueError d) /\
  sleeps (trace_of tid q w) = [].
Proof.
  intros Hd Hne Hs Hr. apply int_all_space in Hs.
  on_path tid q w; mem_cases; delay_cases; done.
Qed.

Lemma search_web_blank_delay_raises_witness :
  (invoke 0 "current weather in Bangkok" (world (env_delay " ") tavily_up)).1
  = Raised (ValueError " ").
Proof.
  apply (search_web_blank_delay_raises 0 "current weather in Bangkok"
           (world (env_delay " ") tavily_up) " "
           (response_for "current weather in Bangkok")).
  - reflexivity.
  - discriminate.
  - reflexivity.
  - vm_compute. apply list_elem_of_here.
Defined.

(** A delay setting that is an integer literal too large for a [float], from
    [2^1024 - 2^970] on, makes [asyncio.sleep] raise: a call whose search
    succeeded raises [OverflowError] after printing the response, without
    having been suspended and without returning. *)
Theorem search_web_huge_delay_raises
    (tid : nat) (q : string) (w : World) (d : string) (n : Z) (r : pyval) :
  environ w !! "TAVILY_SEARCH_DELAY" = Some d ->
  int_ d = Some n ->
  float_bound <= n ->
  inr r ∈ search_replies (trace_of tid q w) ->
  (invoke tid q w).1 = Raised (OverflowError "int too large to convert to float") /\
  prints (trace_of tid q w) = [r] /\
  sleeps (trace_of tid q w) = [] /\
  last (trace_of tid q w) = Some (EEnv "TAVILY_SEARCH_DELAY" (Some d)).
Proof.
  intros Hd Hn Hbig Hr. apply sleep_overflows_true in Hbig.
  on_path tid q w; mem_cases; delay_cases; done.
Qed.

Lemma search_web_huge_delay_raises_witness :
  (invoke 0 "latest exchange rate USD to THB"
     (world (env_delay huge_delay) tavily_up)).1
  = Raised (OverflowError "int too large to convert to float").
Proof.
  apply (search_web_huge_delay_raises 0 "latest exchange rate USD to THB"
           (world (env_delay huge_delay) tavily_up) huge_delay (2 * 10 ^ 308)
           (response_for "latest exchange rate USD to THB")).
  - reflexivity.
  - vm_compute. reflexivity.
  - vm_compute. discriminate.
  - vm_compute. apply list_elem_of_here.
Defined.

(* ===================================================================== *)
(** * More on interleaved invocations *)
(* ===================================================================== *)

Lemma sched_step_length t ps w : length (sched_step t ps w).1 = length ps.
Proof.
  unfold sched_step. destruct (ps !! t) as [p|]; [|done].
  destruct (step t p w). cbn. by rewrite length_insert.
Qed.

Lemma run_pool_length sched : forall ps w,
  length (run_pool sched ps w).1 = length ps.
Proof.
  induction sched as [|t sched IH]; intros ps w; cbn; [done|].
  pose proof (sched_step_length t ps w) as Hl.
  destruct (sched_step t ps w) as [ps1 w1]. cbn in Hl.
  by rewrite IH.
Qed.

(** Where a task of the pool stands, given its own events so far. *)
Lemma pool_task qs sched w tid q :
  qs !! tid = Some q ->
  exists p,
    (run_pool sched (spawn qs) w).1 !! tid = Some p /\
    trace_to (search_web q) (pool_events sched qs w tid) p.
Proof.
  intros Hq.
  destruct (run_pool_inv qs sched (spawn qs) w (history w) [])
    as (hn & Hh & Hinv & _ & _);
    [by rewrite app_nil_r | apply pool_inv_spawn |].
  destruct ((run_pool sched (spawn qs) w).1 !! tid) as [p|] eqn:Hp.
  - exists p. split; [done|].
    destruct (Hinv tid p Hp) as (q' & Hq' & Htr).
    unfold pool_events. rewrite Hh, drop_history. congruence.
  - apply lookup_ge_None in Hp. rewrite run_pool_length in Hp.
    apply lookup_lt_Some in Hq. unfold spawn in Hp.
    rewrite length_fmap in Hp. lia.
Qed.

(** Case analysis on how far a task has come. *)
Ltac trace_cases H :=
  unfold search_web in H; cbn in H;
  repeat (first
    [ match goal with
      | H' : False |- _ => destruct H'
      | H' : exists w, _ |- _ => destruct H' as (? & -> & H')
      | H' : trace_to _ ?l _ |- _ => destruct l; cbn in H'
      end
    | match type of H with
      | context [truthy (environ ?w !! ?k)] =>
          destruct (environ w !! k) as [[|? ?]|]; cbn in H
      | context [match environ ?w !! ?k with _ => _ end] =>
          destruct (environ w !! k); cbn in H
      | context [match tavily_init ?t ?k with _ => _ end] =>
          destruct (tavily_init t k); cbn in H
      | context [match tavily_search ?t ?h ?k ?q ?d with _ => _ end] =>
          destruct (tavily_search t h k q d) eqn:?; cbn in H
      | context [match int_ ?d with _ => _ end] =>
          destruct (int_ d); cbn in H
      | context [asyncio_sleep ?secs] =>
          unfold asyncio_sleep in H; destruct (sleep_overflows secs); cbn in H
      end ]).

Lemma trace_to_requests q evs p :
  trace_to (search_web q) evs p ->
  (length (searches evs) ≤ 1)%nat /\
  (forall req, req ∈ searches evs -> req.1.2 = q /\ req.2 = "advanced").
Proof.
  intros H. trace_cases H.
  all: cbn; split; [lia | intros req Hreq; mem_cases; done].
Qed.

Lemma trace_to_failed q evs p e :
  trace_to (search_web q) evs p ->
  inl e ∈ search_replies evs ->
  p = Raise e.
Proof.
  intros H. trace_cases H.
  all: cbn; intros Hin; mem_cases; try done.
  all: by rewrite <- H.
Qed.

(** However the calls in flight are interleaved, and at every moment, a task
    has sent at most one request, and a request it has sent carries its own
    query and the depth "advanced". *)
Theorem pool_one_request_per_task
    (qs : list string) (sched : list nat) (w : World) (tid : nat) (q : string) :
  qs !! tid = Some q ->
  (length (searches (pool_events sched qs w tid)) ≤ 1)%nat /\
  (forall req, req ∈ searches (pool_events sched qs w tid) ->
     req.1.2 = q /\ req.2 = "advanced").
Proof.
  intros Hq. destruct (pool_task qs sched w tid q Hq) as (p & _ & Htr).
  by apply (trace_to_requests q _ p).
Qed.

Lemma pool_one_request_per_task_witness :
  (length (searches
     (pool_events [1; 0; 1; 1; 0; 1]%nat
        ["current weather in Bangkok"; "latest exchange rate USD to THB"]
        (world env_key tavily_up) 1)) ≤ 1)%nat.
Proof.
  apply (pool_one_request_per_task
           ["current weather in Bangkok"; "latest exchange rate USD to THB"]
           [1; 0; 1; 1; 0; 1]%nat (world env_key tavily_up) 1
           "latest exchange rate USD to THB").
  reflexivity.
Defined.

(** However the calls in flight are interleaved, a task whose own request
    failed with [e] has failed with that same [e], and with nothing else. *)
Theorem pool_failure_is_own
    (qs : list string) (sched : list nat) (w : World) (tid : nat) (q : string) (e : exn) :
  qs !! tid = Some q ->
  inl e ∈ search_replies (pool_events sched qs w tid) ->
  (run_pool sched (spawn qs) w).1 !! tid = Some (Raise e).
Proof.
  intros Hq He. destruct (pool_task qs sched w tid q Hq) as (p & Hp & Htr).
  by rewrite (trace_to_failed q _ p e Htr He) in Hp.
Qed.

Lemma pool_failure_is_own_witness :
  (run_pool [0; 0; 0; 0; 1; 1; 1; 1; 2; 2; 2; 2; 0; 1]%nat
     (spawn ["a"; "b"; "c"]) (world env_key tavily_quota2)).1 !! 2%nat
  = Some (Raise (LibraryError "UsageLimitExceededError"
                   "This request exceeds your plan's set usage limit.")).
Proof.
  apply (pool_failure_is_own ["a"; "b"; "c"]
           [0; 0; 0; 0; 1; 1; 1; 1; 2; 2; 2; 2; 0; 1]%nat
           (world env_key tavily_quota2) 2 "c").
  - reflexivity.
  - vm_compute. apply list_elem_of_here.
Defined.

(* ===================================================================== *)
(** * The session entry point *)
(* ===================================================================== *)

Import Session SessionSample.

Arguments added : simpl never.

(** Walk through a run of [my_agent] or [prewarm]: split on every setting
    looked up and on every answer of the framework, until the outcome and the
    events are explicit in the goal. *)
Ltac walk :=
  unfold added, my_agent, prewarm, Assistant_init; cbn;
  repeat match goal with
    | |- context [match j_environ ?w !! ?k with _ => _ end] =>
        destruct (j_environ w !! k) eqn:?; cbn
    | |- context [match j_userdata ?w !! ?k with _ => _ end] =>
        destruct (j_userdata w !! k) eqn:?; cbn
    | |- context [match j_services ?w ?h ?c with _ => _ end] =>
        destruct (j_services w h c) eqn:?; cbn
    end;
  rewrite <- ?app_assoc, ?drop_history; cbn.

(** When an Azure setting is missing from the environment, [my_agent] raises
    [KeyError] for the first one missing (key before region); it has set the
    log context and has not called the framework or any plugin. *)
Theorem my_agent_missing_azure_setting (ctx : JobContext) (w : Job) :
  j_environ w !! "AZURE_SPEECH_KEY" = None \/
  j_environ w !! "AZURE_SPEECH_REGION" = None ->
  (j_environ w !! "AZURE_SPEECH_KEY" = None ->
   (perform (my_agent ctx) w).1 = Raised (KeyError "AZURE_SPEECH_KEY")) /\
  (j_environ w !! "AZURE_SPEECH_KEY" <> None ->
   (perform (my_agent ctx) w).1 = Raised (KeyError "AZURE_SPEECH_REGION")) /\
  externals (added (my_agent ctx) w) = [] /\
  head (added (my_agent ctx) w) = Some (SSetLog {[ "room" := name (room ctx) ]}).
Proof.
  intros H. revert H. walk; intros [H|H]; try discriminate H; done.
Qed.

Lemma my_agent_missing_azure_setting_witness :
  (perform (my_agent lobby)
     (job {[ "AZURE_SPEECH_KEY" := "az-key" ]} {[ "vad" := 7%nat ]} always_up)).1
  = Raised (KeyError "AZURE_SPEECH_REGION").
Proof.
  apply (my_agent_missing_azure_setting lobby
           (job {[ "AZURE_SPEECH_KEY" := "az-key" ]} {[ "vad" := 7%nat ]} always_up)).
  - right. reflexivity.
  - discriminate.
Defined.

(** Without a ["vad"] entry in [proc.userdata], that is without [prewarm],
    [my_agent] never returns, and all it ever builds are the four models: no
    session is made or started, nothing is said, the room is not connected.
    When the Azure settings are there and the four models were built, it
    raises [KeyError] for ["vad"]. *)
Theorem my_agent_needs_vad (ctx : JobContext) (w : Job) :
  j_userdata w !! "vad" = None ->
  (forall v, (perform (my_agent ctx) w).1 <> Returned v) /\
  (forall c r, (c, r) ∈ externals (added (my_agent ctx) w) -> is_model c = true) /\
  (forall key region,
     j_environ w !! "AZURE_SPEECH_KEY" = Some key ->
     j_environ w !! "AZURE_SPEECH_REGION" = Some region ->
     ext_failures (added (my_agent ctx) w) = [] ->
     (perform (my_agent ctx) w).1 = Raised (KeyError "vad") /\
     length (externals (added (my_agent ctx) w)) = 4%nat).
Proof.
  intros H. revert H. walk; intros H; try discriminate H.
  all: repeat split; try done.
  all: try (intros c r Hin; mem_cases; done).
  all: intros; simplify_eq.
Qed.

Lemma my_agent_needs_vad_witness :
  (perform (my_agent lobby) (job azure_env ∅ always_up)).1 = Raised (KeyError "vad").
Proof.
  assert (Hvad : j_userdata (job azure_env ∅ always_up) !! "vad" = None)
    by reflexivity.
  apply (proj2 (proj2 (my_agent_needs_vad lobby (job azure_env ∅ always_up) Hvad))
           "az-key" "southeastasia"); reflexivity.
Defined.

(** When [my_agent] returns, it has made these calls, in this order and
    nothing else: the four models, from the Azure settings of the environment;
    the session, from those models and the detector found in userdata; the
    assistant; the start of the session in the room of the job; the player
    with the ringtone; its start on the same room and session; the greeting on
    that session; and, last, the connection. *)
Theorem my_agent_completes (ctx : JobContext) (w : Job) :
  (perform (my_agent ctx) w).1 = Returned tt ->
  exists key region stt llm tts td vad session agent started player playing
         spoken connected,
    j_environ w !! "AZURE_SPEECH_KEY" = Some key /\
    j_environ w !! "AZURE_SPEECH_REGION" = Some region /\
    j_userdata w !! "vad" = Some vad /\
    externals (added (my_agent ctx) w) =
      [(AzureSTT key region "th-TH", inr stt);
       (InferenceLLM "openai/gpt-4.1-mini", inr llm);
       (InferenceTTS "cartesia/sonic-3" "a167e0f3-df7e-4d52-a9c3-f949145efdab",
        inr tts);
       (MultilingualModel_new, inr td);
       (AgentSession_new stt llm tts td vad true, inr session);
       (Assistant_new Assistant_instructions, inr agent);
       (Session_start session agent (room ctx) my_agent_room_options, inr started);
       (BackgroundAudioPlayer_new
          [{| source := "sound/ringtone.mp3"; volume := "0.7" |}], inr player);
       (BackgroundAudio_start player (room ctx) session, inr playing);
       (Session_say session my_agent_greeting true, inr spoken);
       (Ctx_connect, inr connected)].
Proof.
  intros H. revert H. walk; intros H; try discriminate H.
  repeat eexists.
Qed.

Lemma my_agent_completes_witness :
  exists key region stt llm tts td vad session agent started player playing
         spoken connected,
    j_environ (job azure_env {[ "vad" := 7%nat ]} always_up) !! "AZURE_SPEECH_KEY"
      = Some key /\
    j_environ (job azure_env {[ "vad" := 7%nat ]} always_up) !! "AZURE_SPEECH_REGION"
      = Some region /\
    j_userdata (job azure_env {[ "vad" := 7%nat ]} always_up) !! "vad" = Some vad /\
    externals (added (my_agent lobby) (job azure_env {[ "vad" := 7%nat ]} always_up)) =
      [(AzureSTT key region "th-TH", inr stt);
       (InferenceLLM "openai/gpt-4.1-mini", inr llm);
       (InferenceTTS "cartesia/sonic-3" "a167e0f3-df7e-4d52-a9c3-f949145efdab",
        inr tts);
       (MultilingualModel_new, inr td);
       (AgentSession_new stt llm tts td vad true, inr session);
       (Assistant_new Assistant_instructions, inr agent);
       (Session_start session agent (room lobby) my_agent_room_options, inr started);
       (BackgroundAudioPlayer_new
          [{| source := "sound/ringtone.mp3"; volume := "0.7" |}], inr player);
       (BackgroundAudio_start player (room lobby) session, inr playing);
       (Session_say session my_agent_greeting true, inr spoken);
       (Ctx_connect, inr connected)].
Proof.
  apply (my_agent_completes lobby (job azure_env {[ "vad" := 7%nat ]} always_up)).
  reflexivity.
Defined.

(** When a call to the framework or a plugin fails, [my_agent] raises that
    same exception and the failed call is the last thing it did: nothing is
    retried, nothing is cleaned up, nothing later is attempted. *)
Theorem my_agent_failure_stops (ctx : JobContext) (w : Job) (c : ext) (e : exn) :
  (c, inl e) ∈ externals (added (my_agent ctx) w) ->
  (perform (my_agent ctx) w).1 = Raised e /\
  last (added (my_agent ctx) w) = Some (SExt c (inl e)) /\
  ext_failures (added (my_agent ctx) w) = [e].
Proof.
  intros H. revert H. walk; intros H; mem_cases; done.
Qed.

Lemma my_agent_failure_stops_witness :
  (perform (my_agent lobby) (job azure_env {[ "vad" := 7%nat ]} stt_down)).1
  = Raised (LibraryError "ValueError" "invalid speech region").
Proof.
  apply (my_agent_failure_stops lobby (job azure_env {[ "vad" := 7%nat ]} stt_down)
           (AzureSTT "az-key" "southeastasia" "th-TH")).
  vm_compute. apply list_elem_of_here.
Defined.

(** Whatever happens, [my_agent] leaves the environment and [proc.userdata]
    as they were, and the log context of the job holds the name of its room,
    and only that, from the first step on. *)
Theorem my_agent_frame (ctx : JobContext) (w : Job) :
  j_environ (perform (my_agent ctx) w).2 = j_environ w /\
  j_userdata (perform (my_agent ctx) w).2 = j_userdata w /\
  j_log_context_fields (perform (my_agent ctx) w).2 = {[ "room" := name (room ctx) ]}.
Proof.
  walk; done.
Qed.

(** Whenever [my_agent] starts the session, it does so in the room of the job
    and with a noise cancellation that picks the telephony filter for SIP
    participants and the standard filter for everyone else. *)
Theorem my_agent_noise_cancellation_choice
    (ctx : JobContext) (w : Job) (session agent : obj) (rm : Room)
    (opts : RoomOptions) (r : exn + obj) :
  (Session_start session agent rm opts, r) ∈ externals (added (my_agent ctx) w) ->
  rm = room ctx /\
  forall params,
    (kind (participant params) = PARTICIPANT_KIND_SIP ->
     noise_cancellation (audio_input opts) params = BVCTelephony) /\
    (kind (participant params) <> PARTICIPANT_KIND_SIP ->
     noise_cancellation (audio_input opts) params = BVC).
Proof.
  intros H. revert H. walk; intros H; mem_cases.
  all: split; [done|]; intros params; cbn; unfold my_agent_noise_cancellation.
  all: split; intros Hk.
  all: try (by rewrite Hk).
  all: by apply Z.eqb_neq in Hk; rewrite Hk.
Qed.

Lemma my_agent_noise_cancellation_choice_witness :
  noise_cancellation (audio_input my_agent_room_options)
    {| participant := {| kind := 0 |} |} = BVC.
Proof.
  apply (my_agent_noise_cancellation_choice lobby
           (job azure_env {[ "vad" := 7%nat ]} always_up)
           8%nat 9%nat (room lobby) my_agent_room_options (inr 10%nat)).
  - vm_compute. do 6 apply list_elem_of_further. apply list_elem_of_here.
  - discriminate.
Defined.

(* ===================================================================== *)
(** * Prewarming the process *)
(* ===================================================================== *)

(** [prewarm] loads the detector once.  When loading fails, it raises that
    failure and [proc.userdata] is as before; when loading succeeds, the
    detector is stored under ["vad"], replacing what was there, and every
    other entry is as before.  The environment is not touched. *)
Theorem prewarm_stores_vad (w : Job) :
  (forall e,
     (perform prewarm w).1 = Raised e ->
     externals (added prewarm w) = [(VAD_load, inl e)] /\
     j_userdata (perform prewarm w).2 = j_userdata w) /\
  ((perform prewarm w).1 = Returned tt ->
   exists v,
     externals (added prewarm w) = [(VAD_load, inr v)] /\
     j_userdata (perform prewarm w).2 !! "vad" = Some v /\
     forall key, key <> "vad" ->
       j_userdata (perform prewarm w).2 !! key = j_userdata w !! key) /\
  j_environ (perform prewarm w).2 = j_environ w.
Proof.
  split; [|split].
  - intros e. walk; intros He; simplify_eq. done.
  - walk; intros He; simplify_eq. eexists. repeat split.
    + apply lookup_insert_eq.
    + intros key Hne. by apply lookup_insert_ne.
  - walk; done.
Qed.

Lemma prewarm_stores_vad_witness :
  exists v,
    externals (added prewarm (job azure_env {[ "vad" := 7%nat ]} always_up))
      = [(VAD_load, inr v)] /\
    j_userdata (perform prewarm (job azure_env {[ "vad" := 7%nat ]} always_up)).2 !! "vad"
      = Some v /\
    forall key, key <> "vad" ->
      j_userdata (perform prewarm (job azure_env {[ "vad" := 7%nat ]} always_up)).2 !! key
      = j_userdata (job azure_env {[ "vad" := 7%nat ]} always_up) !! key.
Proof.
  apply (proj1 (proj2 (prewarm_stores_vad (job azure_env {[ "vad" := 7%nat ]} always_up)))).
  reflexivity.
Defined.

Lemma prewarm_vad (w : Job) (v : obj) :
  (VAD_load, inr v) ∈ externals (added prewarm w) ->
  j_userdata (perform prewarm w).2 !! "vad" = Some v.
Proof.
  walk; intros H; mem_cases. apply lookup_insert_eq.
Qed.

Lemma my_agent_uses_vad (ctx : JobContext) (w : Job) (v : obj) :
  j_userdata w !! "vad" = Some v ->
  (forall key, SGet key None ∉ added (my_agent ctx) w) /\
  (forall stt llm tts td vad pg r,
     (AgentSession_new stt llm tts td vad pg, r) ∈ externals (added (my_agent ctx) w) ->
     vad = v /\ pg = true).
Proof.
  intros H. revert H. walk; intros H; simplify_eq.
  all: split; [intros key Hin; mem_cases | intros; mem_cases; done].
Qed.

(** In a process that [prewarm] has prepared, [my_agent] finds the detector:
    no lookup in userdata fails, and a session it builds is built with the
    very detector [prewarm] loaded, with preemptive generation on. *)
Theorem prewarm_then_my_agent (ctx : JobContext) (w : Job) (v : obj) :
  (VAD_load, inr v) ∈ externals (added prewarm w) ->
  (forall key, SGet key None ∉ added (my_agent ctx) (perform prewarm w).2) /\
  (forall stt llm tts td vad pg r,
     (AgentSession_new stt llm tts td vad pg, r)
       ∈ externals (added (my_agent ctx) (perform prewarm w).2) ->
     vad = v /\ pg = true).
Proof.
  intros H. apply my_agent_uses_vad. by apply prewarm_vad.
Qed.

Lemma prewarm_then_my_agent_witness :
  (0%nat = 0%nat /\ true = true) /\
  (VAD_load, inr 0%nat) ∈ externals (added prewarm (job azure_env ∅ always_up)).
Proof.
  assert (Hload : (VAD_load, inr 0%nat)
                    ∈ externals (added prewarm (job azure_env ∅ always_up)))
    by (vm_compute; apply list_elem_of_here).
  split; [|exact Hload].
  apply (proj2 (prewarm_then_my_agent lobby (job azure_env ∅ always_up) 0%nat Hload)
           5%nat 6%nat 7%nat 8%nat 0%nat true (inr 10%nat)).
  vm_compute. do 4 apply list_elem_of_further. apply list_elem_of_here.
Defined.

(** [prewarm], then [my_agent], with everything answering: the session is
    built on the detector that was loaded first, and the job ends connected. *)
Example prewarm_then_my_agent_run :
  let w1 := (perform prewarm (job azure_env ∅ always_up)).2 in
  (perform (my_agent lobby) w1).1 = Returned tt /\
  (fst <$> externals (added (my_agent lobby) w1)) !! 4%nat
    = Some (AgentSession_new 5%nat 6%nat 7%nat 8%nat 0%nat true) /\
  last (fst <$> externals (added (my_agent lobby) w1)) = Some Ctx_connect.
Proof. repeat split; reflexivity. Qed.

(** In every run of [my_agent], complete or not, the calls to the framework
    and the plugins come in the order of the source, without a gap and
    without a repeat, and each but the last has succeeded: the session is
    started only once it and the assistant exist, the greeting is said only
    once the background audio has started, and the room is connected only
    after the greeting. *)
Theorem my_agent_order (ctx : JobContext) (w : Job) :
  stage <$> (fst <$> externals (added (my_agent ctx) w))
    = seq 1 (length (externals (added (my_agent ctx) w))) /\
  (forall i cr,
     externals (added (my_agent ctx) w) !! i = Some cr ->
     (S i < length (externals (added (my_agent ctx) w)))%nat ->
     succeeded cr.2 = true).
Proof.
  walk; split; try done.
  all: intros i cr Hi Hlt; cbn in Hlt.
  all: do 12 (try destruct i as [|i]; cbn in Hi; try discriminate Hi;
              try (by simplify_eq); try lia).
Qed.

Lemma my_agent_order_witness :
  succeeded (inr 3%nat) = true.
Proof.
  apply (proj2 (my_agent_order lobby (job azure_env {[ "vad" := 7%nat ]} always_up))
           0%nat (AzureSTT "az-key" "southeastasia" "th-TH", inr 3%nat)).
  - reflexivity.
  - vm_compute. lia.
Defined.
